(** * Solar-yield pipeline: postcode lookup, PVWatts proxy, rescaling and
      daily aggregation

    A shallow embedding of

    - [src/app/components/SolarData.tsx]          (module [SolarData]),
    - [src/app/components/PostcodeSolarData.tsx]  (module [PostcodeSolarData]),
    - [app/api/NREL/route.ts]                     (module [NrelRoute]),
    - the 24-hour component in [src/app/layout.tsx] (module [DaySolarData]).

    JavaScript numbers are IEEE 754 binary64 values and are modelled by Rocq's
    primitive floats, so [*], [/] and [+] below round exactly as they do in the
    program.  Array indices, lengths and loop counters are natural numbers.
    Network calls are events of a small free monad; an [await] hands the
    settled outcome of the call to the rest of the function. *)

From Stdlib Require Import Floats ZArith List String Ascii Bool Arith Lia.
Import ListNotations.

Set Implicit Arguments.
Set Warnings "-register-all".
Set Warnings "-inexact-float".

(* ===================================================================== *)
(** * The JavaScript values the code works on *)
(* ===================================================================== *)

Module JS.

(** ** Numbers *)

Abbreviation number := float (only parsing).

(** Global [isNaN] applied to a number. *)
Definition isNaN (x : number) : bool := PrimFloat.is_nan x.

(** [Number.isFinite]: neither NaN nor an infinity. *)
Definition isFinite (x : number) : bool := PrimFloat.is_finite x.

(** An array length or index used as a number (exact below 2^53). *)
Definition of_nat (n : nat) : number :=
  PrimFloat.of_uint63 (Uint63.of_Z (Z.of_nat n)).

(** The value a decimal literal [m * 10^e] denotes as a Number: the nearest
    binary64 value, ties to even, overflowing to an infinity. *)
Definition round_decimal (neg : bool) (m : positive) (e : Z) : spec_float :=
  match e with
  | Zneg p =>
      SFdiv prec emax (S754_finite neg m 0)
                      (S754_finite false (Pos.pow 10 p) 0)
  | _ => binary_normalize prec emax
           ((if neg then Zneg m else Zpos m) * 10 ^ e) 0 false
  end.

Definition decimal_value (neg : bool) (m e : Z) : number :=
  match m with
  | Zpos p => SF2Prim (round_decimal neg p e)
  | _ => if neg then PrimFloat.neg_zero else PrimFloat.zero
  end.

(** ** Strings

    A string is its sequence of code units; the model covers the code units
    below 256. *)

Definition code (c : ascii) : nat := nat_of_ascii c.

Definition is_digit (c : ascii) : bool :=
  (48 <=? code c)%nat && (code c <=? 57)%nat.

Definition digit_value (c : ascii) : Z := Z.of_nat (code c) - 48.

(** WhiteSpace and LineTerminator code units: TAB, LF, VT, FF, CR, SP,
    NBSP. *)
Definition is_space (c : ascii) : bool :=
  ((9 <=? code c)%nat && (code c <=? 13)%nat)
  || (code c =? 32)%nat || (code c =? 160)%nat.

Fixpoint trim_start (s : string) : string :=
  match s with
  | String c s' => if is_space c then trim_start s' else s
  | EmptyString => s
  end.

(** Reads the longest run of decimal digits at the head of [s]: the value
    of the run continued from [acc], how many digits were read, and the
    rest of the string. *)
Fixpoint digits (s : string) (acc : Z) (n : nat) : Z * nat * string :=
  match s with
  | String c s' =>
      if is_digit c then digits s' (10 * acc + digit_value c) (S n)
      else (acc, n, s)
  | EmptyString => (acc, n, s)
  end.

(** ExponentPart: [e] or [E], an optional sign, at least one digit.  An
    ill-formed exponent is not part of the literal and counts as 0. *)
Definition exponent_part (s : string) : Z :=
  match s with
  | String c s' =>
      if (code c =? 101)%nat || (code c =? 69)%nat then
        let '(neg, s'') :=
          match s' with
          | String d t =>
              if (code d =? 45)%nat then (true, t)
              else if (code d =? 43)%nat then (false, t)
              else (false, s')
          | EmptyString => (false, s')
          end in
        let '(v, n, _) := digits s'' 0 0 in
        match n with
        | O => 0
        | S _ => if neg then - v else v
        end
      else 0
  | EmptyString => 0
  end.

(** StrUnsignedDecimalLiteral at the head of [s], already signed by
    [neg]; [None] when no prefix of [s] is one. *)
Definition unsigned_literal (neg : bool) (s : string) : option number :=
  if String.prefix "Infinity" s then
    Some (if neg then PrimFloat.neg_infinity else PrimFloat.infinity)
  else
    let '(ip, ni, r) := digits s 0 0 in
    let '(m, nf, r') :=
      match r with
      | String c t =>
          if (code c =? 46)%nat then digits t ip 0 else (ip, 0%nat, r)
      | EmptyString => (ip, 0%nat, r)
      end in
    match (ni + nf)%nat with
    | O => None
    | S _ => Some (decimal_value neg m (exponent_part r' - Z.of_nat nf))
    end.

(** Global [parseFloat] on a string: leading white space is skipped, the
    longest prefix that is a StrDecimalLiteral is converted, and NaN is
    returned when there is none. *)
Definition parseFloat (s : string) : number :=
  let t := trim_start s in
  let '(neg, u) :=
    match t with
    | String c t' =>
        if (code c =? 45)%nat then (true, t')
        else if (code c =? 43)%nat then (false, t')
        else (false, t)
    | EmptyString => (false, t)
    end in
  match unsigned_literal neg u with
  | Some x => x
  | None => PrimFloat.nan
  end.

End JS.

Import JS.
Local Open Scope string_scope.

(* ===================================================================== *)
(** * Bodies that travel over the network *)
(* ===================================================================== *)

Module Wire.

(** [LatLongResponse], the body of the postal lookup service. *)
Record LatLong : Set := { latitude : string; longitude : string }.

Record LatLongResponse : Set := {
  status : option string;
  result : option (list LatLong);
  message : option string
}.

(** [SolarDataResponse.outputs], the PVWatts payload the components read.
    [PostcodeSolarData.tsx] declares only the field [ac] of it. *)
Record Outputs : Set := {
  ac : list number;
  ac_monthly : list number;
  poa_monthly : list number;
  solrad_monthly : list number;
  dc_monthly : list number;
  ac_annual : number;
  solrad_annual : number;
  capacity_factor : number
}.

Record SolarDataResponse : Set := { outputs : Outputs }.

(** A JSON value the route handler passes on without looking inside. *)
Inductive Json : Set :=
| JNull
| JBool (b : bool)
| JNumber (x : number)
| JString (s : string)
| JArray (items : list Json)
| JObject (members : list (string * Json)).

(** Property read [v.key] on a parsed JSON value, as destructuring does
    it: [None] is [undefined]. *)
Fixpoint member (key : string) (members : list (string * Json)) : option Json :=
  match members with
  | [] => None
  | (k, v) :: rest =>
      match member key rest with
      | Some later => Some later
      | None => if String.eqb k key then Some v else None
      end
  end.

(** The query string of the PVWatts request; every parameter but the key
    and the coordinates is a constant of the handler. *)
Record PvwattsQuery : Set := {
  api_key : string;
  q_lat : option Json;
  q_lon : option Json;
  system_capacity : nat;
  azimuth : nat;
  tilt : nat;
  array_type : nat;
  module_type : nat;
  losses : nat;
  timeframe : string
}.

End Wire.

(* ===================================================================== *)
(** * Effects: exceptions, awaited calls, component state *)
(* ===================================================================== *)

Module Effects.

(** What a [catch] clause can tell about the value it caught. *)
Inductive Thrown : Set :=
| ErrorInstance (message : string)
| OtherValue.

Inductive Completion (A : Type) : Type :=
| Normal (a : A)
| Throw (t : Thrown).
Arguments Throw {A} t.

(** A [Response]: its [ok] flag and what reading the body comes to.  [json]
    is [Normal b] when [await response.json()] yields a body of the declared
    type, and [Throw] when the body is not JSON or a read of it throws; in
    the program both happen inside the same [try] and before any change of
    state. *)
Record Response (B : Type) : Type := { ok : bool; json : Completion B }.

(** What the promise of a [fetch] settles to. *)
Inductive FetchOutcome (B : Type) : Type :=
| Rejected (t : Thrown)
| Resolved (r : Response B).
Arguments Rejected {B} t.

(** The network calls of the program, indexed by what they settle to.  The
    body of the route's answer has the type [SolarData.tsx] declares;
    [PostcodeSolarData.tsx] reads only its field [ac], so a body that only
    that component can read has no counterpart here. *)
Inductive Call : Type -> Type :=
| GetPostalLocation (pincode countrycode : string)
    : Call (FetchOutcome Wire.LatLongResponse)
| PostNrelRoute (lat long : number)
    : Call (FetchOutcome Wire.SolarDataResponse)
| GetPvwatts (q : Wire.PvwattsQuery)
    : Call (FetchOutcome Wire.Json).

(** An async function body: it finishes, or it awaits a call and goes on
    with what the call settled to. *)
Inductive Async (A : Type) : Type :=
| Done (a : A)
| Await (T : Type) (call : Call T) (k : T -> Async A).
Arguments Await {A T} call k.

Fixpoint andThen {A B : Type} (p : Async A) (f : A -> Async B) : Async B :=
  match p with
  | Done a => f a
  | Await call k => Await call (fun x => andThen (k x) f)
  end.

(** Computations over a state [S] that may await and may throw. *)
Definition M (S A : Type) : Type := S -> Async (Completion A * S).

Section Monad.
Context {S : Type}.

Definition ret {A} (a : A) : M S A := fun s => Done (Normal a, s).

Definition throw {A} (t : Thrown) : M S A := fun s => Done (Throw t, s).

Definition bind {A B} (m : M S A) (f : A -> M S B) : M S B :=
  fun s => andThen (m s) (fun r =>
    match fst r with
    | Normal a => f a (snd r)
    | Throw t => Done (Throw t, snd r)
    end).

Definition modify (f : S -> S) : M S unit := fun s => Done (Normal tt, f s).

Definition await {T} (call : Call T) : M S T :=
  fun s => Await call (fun x => Done (Normal x, s)).

Definition settle {A} (c : Completion A) : M S A := fun s => Done (c, s).

(** [try { m } catch (e) { h e }] *)
Definition try_catch {A} (m : M S A) (h : Thrown -> M S A) : M S A :=
  fun s => andThen (m s) (fun r =>
    match fst r with
    | Normal a => Done (Normal a, snd r)
    | Throw t => h t (snd r)
    end).

(** [try { m } finally { f }] *)
Definition try_finally {A} (m : M S A) (f : M S unit) : M S A :=
  fun s => andThen (m s) (fun r =>
    andThen (f (snd r)) (fun r' =>
      match fst r' with
      | Normal _ => Done (fst r, snd r')
      | Throw t => Done (Throw t, snd r')
      end)).

(** [await fetch(...)]: a rejected promise is thrown at the [await]. *)
Definition fetch {B} (call : Call (FetchOutcome B)) : M S (Response B) :=
  bind (await call) (fun o =>
    match o with
    | Rejected t => throw t
    | Resolved r => ret r
    end).

(** [err instanceof Error ? err.message : 'Unknown error'] *)
Definition message_of (err : Thrown) : string :=
  match err with
  | ErrorInstance m => m
  | OtherValue => "Unknown error"
  end.

End Monad.

(** ** Running against an environment *)

(** The environment settles every call. *)
Definition World : Type := forall T, Call T -> T.

Inductive Step : Type :=
| Started (T : Type) (call : Call T)
| Settled (T : Type) (call : Call T).
Arguments Started {T} call.
Arguments Settled {T} call.

(** The result of an async body and the network steps in the order they
    happened. *)
Fixpoint run {A} (w : World) (p : Async A) : A * list Step :=
  match p with
  | Done a => (a, [])
  | Await call k =>
      let r := run w (k (w _ call)) in
      (fst r, Started call :: Settled call :: snd r)
  end.

Definition is_proxy_step (e : Step) : bool :=
  match e with
  | Started (PostNrelRoute _ _) | Settled (PostNrelRoute _ _) => true
  | _ => false
  end.

End Effects.

Import Effects.

Declare Scope js_scope.
Delimit Scope js_scope with js.
Notation "x <- m ;; k" := (bind m (fun x => k))
  (at level 61, m at next level, right associativity) : js_scope.
Notation "m ;; k" := (bind m (fun _ => k))
  (at level 61, right associativity) : js_scope.

(* ===================================================================== *)
(** * Array methods the components call *)
(* ===================================================================== *)

Module Arr.

(** [arr.map((x, index) => f x index)], indices counted from [i]. *)
Fixpoint map_from {A B} (f : A -> nat -> B) (i : nat) (arr : list A) : list B :=
  match arr with
  | [] => []
  | x :: rest => f x i :: map_from f (S i) rest
  end.

Definition mapi {A B} (f : A -> nat -> B) (arr : list A) : list B :=
  map_from f 0 arr.

(** [arr.slice(start, stop)] for indices that are not negative: the
    elements at [start], ..., [stop - 1] that exist. *)
Definition slice {A} (arr : list A) (start stop : nat) : list A :=
  firstn (stop - start) (skipn start arr).

(** [arr.reduce(f, init)] and [arr.reduce(f)]: without an initial value an
    empty array is a TypeError. *)
Definition reduce {A} (f : A -> A -> A) (arr : list A) (init : option A)
  : Completion A :=
  match init, arr with
  | Some a, _ => Normal (fold_left f arr a)
  | None, x :: rest => Normal (fold_left f rest x)
  | None, [] =>
      Throw (ErrorInstance "Reduce of empty array with no initial value")
  end.

End Arr.

Local Open Scope js_scope.

Definition generic_failure : string := "Data cannot be fetched for this postcode".

(* ===================================================================== *)
(** * [src/app/components/SolarData.tsx] *)
(* ===================================================================== *)

Module SolarData.

Record Coords : Set := { lat : number; long : number }.

Record HourlyPoint : Set := { hour : nat; power : number }.

Record Monthly : Set := {
  ac_monthly : list number;
  poa_monthly : list number;
  solrad_monthly : list number;
  dc_monthly : list number
}.

Record Annual : Set := {
  ac_annual : number;
  solrad_annual : number;
  capacity_factor : number
}.

(** The type [SolarData] of the source. *)
Record Bundle : Set := {
  hourly : list HourlyPoint;
  monthly : Monthly;
  annual : Annual
}.

(** The component state [getSolarData] writes, and the console. *)
Record State : Set := {
  solarData : option Bundle;
  loading : bool;
  error : string;
  console : list (string * string)
}.

Definition setSolarData (d : option Bundle) : M State unit :=
  modify (fun s => {| solarData := d; loading := loading s;
                      error := error s; console := console s |}).

Definition setLoading (b : bool) : M State unit :=
  modify (fun s => {| solarData := solarData s; loading := b;
                      error := error s; console := console s |}).

Definition setError (e : string) : M State unit :=
  modify (fun s => {| solarData := solarData s; loading := loading s;
                      error := e; console := console s |}).

Definition console_error (label msg : string) : M State unit :=
  modify (fun s => {| solarData := solarData s; loading := loading s;
                      error := error s;
                      console := console s ++ [(label, msg)] |}).

Definition getLatitudeLongitude {S} (pincode countrycode : string)
  : M S (option Coords) :=
  try_catch
    (response <- fetch (GetPostalLocation pincode countrycode) ;;
     if negb (ok response) then ret None
     else
       data <- settle (json response) ;;
       match Wire.result data with
       | None | Some [] => ret None
       | Some (first :: _) =>
           let lat := parseFloat (Wire.latitude first) in
           let long := parseFloat (Wire.longitude first) in
           if isNaN lat || isNaN long then ret None
           else ret (Some {| lat := lat; long := long |})
       end)
    (fun _ => ret None).

(** Lines 93-110: the bundle built from the payload. *)
Definition combinedData (data : Wire.SolarDataResponse) (solarcapacity : number)
  : Bundle :=
  let scaleFactor := (solarcapacity / 1000)%float in
  let o := Wire.outputs data in
  {| hourly :=
       Arr.mapi (fun power index =>
                   {| hour := index; power := (power * scaleFactor)%float |})
                (Wire.ac o);
     monthly :=
       {| ac_monthly := map (fun val => (val * scaleFactor)%float) (Wire.ac_monthly o);
          poa_monthly := map (fun val => (val * scaleFactor)%float) (Wire.poa_monthly o);
          solrad_monthly := Wire.solrad_monthly o;
          dc_monthly := map (fun val => (val * scaleFactor)%float) (Wire.dc_monthly o) |};
     annual :=
       {| ac_annual := (Wire.ac_annual o * scaleFactor)%float;
          solrad_annual := Wire.solrad_annual o;
          capacity_factor := Wire.capacity_factor o |} |}.

Definition getSolarData (pincode countrycode : string) (solarcapacity : number)
  : M State unit :=
  setLoading true ;;
  setError "" ;;
  try_finally
    (try_catch
       (coords <- getLatitudeLongitude pincode countrycode ;;
        match coords with
        | None => setError generic_failure
        | Some c =>
            response <- fetch (PostNrelRoute (lat c) (long c)) ;;
            if negb (ok response) then setError generic_failure
            else
              data <- settle (json response) ;;
              setSolarData (Some (combinedData data solarcapacity))
        end)
       (fun err =>
          console_error "Error fetching solar data:" (message_of err) ;;
          setError generic_failure))
    (setLoading false).

Definition initial : State :=
  {| solarData := None; loading := false; error := ""; console := [] |}.

End SolarData.

(* ===================================================================== *)
(** * [src/app/components/PostcodeSolarData.tsx] *)
(* ===================================================================== *)

Module PostcodeSolarData.

Record Coords : Set := { lat : number; long : number }.

(** [AggregatedSolarData]: day of year and the average power of the day. *)
Record AggregatedSolarData : Set := { day : nat; avgPower : number }.

Record State : Set := {
  solarData : list AggregatedSolarData;
  loading : bool;
  error : string;
  console : list (string * string)
}.

Definition setSolarData (d : list AggregatedSolarData) : M State unit :=
  modify (fun s => {| solarData := d; loading := loading s;
                      error := error s; console := console s |}).

Definition setLoading (b : bool) : M State unit :=
  modify (fun s => {| solarData := solarData s; loading := b;
                      error := error s; console := console s |}).

Definition setError (e : string) : M State unit :=
  modify (fun s => {| solarData := solarData s; loading := loading s;
                      error := e; console := console s |}).

Definition console_error (label msg : string) : M State unit :=
  modify (fun s => {| solarData := solarData s; loading := loading s;
                      error := error s;
                      console := console s ++ [(label, msg)] |}).

Definition getLatitudeLongitude {S} (pincode countrycode : string)
  : M S (option Coords) :=
  try_catch
    (response <- fetch (GetPostalLocation pincode countrycode) ;;
     if negb (ok response) then ret None
     else
       data <- settle (json response) ;;
       match Wire.result data with
       | None | Some [] => ret None
       | Some (first :: _) =>
           let lat := parseFloat (Wire.latitude first) in
           let long := parseFloat (Wire.longitude first) in
           if isNaN lat || isNaN long then ret None
           else ret (Some {| lat := lat; long := long |})
       end)
    (fun _ => ret None).

(** Line 73: the rescaled hourly series. *)
Definition acPower (ac : list number) (solarcapacity : number) : list number :=
  map (fun power => ((power * solarcapacity) / 1000)%float) ac.

(** Lines 77-81: the body of the loop for one value of [day]. *)
Definition dayEntry (acPower : list number) (day : nat)
  : Completion AggregatedSolarData :=
  let start := day * 24 in
  let stop := start + 24 in
  let dayPower := Arr.slice acPower start stop in
  match Arr.reduce (fun sum val => (sum + val)%float) dayPower (Some 0%float) with
  | Normal total =>
      let avgPower := (total / of_nat (List.length dayPower))%float in
      Normal {| day := day + 1; avgPower := avgPower |}
  | Throw t => Throw t
  end.

(** [for (let day = ...; day < 365; day++)] with [todo] rounds left;
    [dailyData] is the array pushed to. *)
Fixpoint dailyLoop (todo day : nat) (acPower : list number)
         (dailyData : list AggregatedSolarData)
  : Completion (list AggregatedSolarData) :=
  match todo with
  | O => Normal dailyData
  | S todo' =>
      match dayEntry acPower day with
      | Normal entry => dailyLoop todo' (day + 1) acPower (dailyData ++ [entry])
      | Throw t => Throw t
      end
  end.

(** Lines 73-82: from the payload's hourly series to the daily one. *)
Definition dailyData (ac : list number) (solarcapacity : number)
  : Completion (list AggregatedSolarData) :=
  dailyLoop 365 0 (acPower ac solarcapacity) [].

Definition getSolarData (pincode countrycode : string) (solarcapacity : number)
  : M State unit :=
  setLoading true ;;
  setError "" ;;
  try_finally
    (try_catch
       (coords <- getLatitudeLongitude pincode countrycode ;;
        match coords with
        | None => setError generic_failure
        | Some c =>
            response <- fetch (PostNrelRoute (lat c) (long c)) ;;
            if negb (ok response) then setError generic_failure
            else
              data <- settle (json response) ;;
              dailyData <- settle
                (dailyData (Wire.ac (Wire.outputs data)) solarcapacity) ;;
              setSolarData dailyData
        end)
       (fun err =>
          console_error "Error fetching solar data:" (message_of err) ;;
          setError generic_failure))
    (setLoading false).

Definition initial : State :=
  {| solarData := []; loading := false; error := ""; console := [] |}.

End PostcodeSolarData.

(* ===================================================================== *)
(** * [app/api/NREL/route.ts] *)
(* ===================================================================== *)

Module NrelRoute.

(** The incoming [Request]: what [req.json()] settles to. *)
Record Request : Set := { req_json : Completion Wire.Json }.

(** [process.env]: the variable [NREL_API], when set. *)
Record Env : Set := { NREL_API : option string }.

(** The two bodies the handler sends, as the JSON values a reader of the
    response gets: the error object, or the body made from PVWatts' data. *)
Inductive Body : Set :=
| ErrorBody (error : string)
| Relayed (data : Wire.Json).

(** [NextResponse.json(body, { status })]; the status defaults to 200. *)
Record NextResponse : Set := { status : nat; body : Body }.

(** The handler's only state is the server console. *)
Definition Console : Set := list (string * string).

Definition console_error (label msg : string) : M Console unit :=
  modify (fun log : Console => (log ++ [(label, msg)])%list).

(** [const { lat, long } = value]: reading properties of [null] throws (the
    message is the one V8 gives); a property that is not there is
    [undefined]. *)
Definition destructure (value : Wire.Json)
  : Completion (option Wire.Json * option Wire.Json) :=
  match value with
  | Wire.JNull =>
      Throw (ErrorInstance
               "Cannot destructure property 'lat' of '(intermediate value)' as it is null.")
  | Wire.JObject members =>
      Normal (Wire.member "lat" members, Wire.member "long" members)
  | _ => Normal (None, None)
  end.

(** [apiKey] when it is truthy: [!apiKey] holds for [undefined] and for
    the empty string. *)
Definition truthy (apiKey : option string) : option string :=
  match apiKey with
  | Some k => if String.eqb k "" then None else Some k
  | None => None
  end.

(** What [JSON.stringify] writes for a number reads back as the same
    number, except that a number that is not finite is written [null] and
    negative zero is written [0]. *)
Definition stringified_number (x : number) : Wire.Json :=
  if isFinite x
  then if PrimFloat.is_zero x then Wire.JNumber 0%float else Wire.JNumber x
  else Wire.JNull.

(** [NextResponse.json(value)] serialises [value] with [JSON.stringify];
    [stringified value] is the JSON value a reader of that text gets. *)
Fixpoint stringified (value : Wire.Json) : Wire.Json :=
  match value with
  | Wire.JNumber x => stringified_number x
  | Wire.JArray items => Wire.JArray (map stringified items)
  | Wire.JObject members =>
      Wire.JObject (map (fun member => (fst member, stringified (snd member))) members)
  | _ => value
  end.

Definition url (apiKey : string) (lat long : option Wire.Json) : Wire.PvwattsQuery :=
  {| Wire.api_key := apiKey; Wire.q_lat := lat; Wire.q_lon := long;
     Wire.system_capacity := 1; Wire.azimuth := 180; Wire.tilt := 40;
     Wire.array_type := 1; Wire.module_type := 1; Wire.losses := 10;
     Wire.timeframe := "hourly" |}.

Definition POST (env : Env) (req : Request) : M Console NextResponse :=
  try_catch
    (value <- settle (req_json req) ;;
     coords <- settle (destructure value) ;;
     match truthy (NREL_API env) with
     | None =>
         throw (ErrorInstance "NREL API key is missing in environment variables")
     | Some apiKey =>
         response <- fetch (GetPvwatts (url apiKey (fst coords) (snd coords))) ;;
         if negb (ok response)
         then throw (ErrorInstance "Failed to fetch data from NREL API")
         else
           data <- settle (json response) ;;
           ret {| status := 200; body := Relayed (stringified data) |}
     end)
    (fun error =>
       let err := message_of error in
       console_error "NREL API Error:" err ;;
       ret {| status := 500; body := ErrorBody err |}).

End NrelRoute.

(* ===================================================================== *)
(** * Environments and observations used in the statements *)
(* ===================================================================== *)

(** The environment in which the three services settle as scripted. *)
Definition scripted
    (postal : FetchOutcome Wire.LatLongResponse)
    (route : FetchOutcome Wire.SolarDataResponse)
    (pvwatts : FetchOutcome Wire.Json) : World :=
  fun T call =>
    match call in Call T return T with
    | GetPostalLocation _ _ => postal
    | PostNrelRoute _ _ => route
    | GetPvwatts _ => pvwatts
    end.

(** A successful response carrying [b]. *)
Definition success {B} (b : B) : FetchOutcome B :=
  Resolved {| ok := true; json := Normal b |}.

(** What a computation completes with, the state it leaves and the network
    steps it took, from state [s] in environment [w]. *)
Definition completion {S A} (w : World) (m : M S A) (s : S) : Completion A :=
  fst (fst (run w (m s))).

Definition final {S A} (w : World) (m : M S A) (s : S) : S :=
  snd (fst (run w (m s))).

Definition trace {S A} (w : World) (m : M S A) (s : S) : list Step :=
  snd (run w (m s)).

(** The arithmetic mean as the code computes it: the sum taken left to
    right from 0, divided by the number of values. *)
Definition mean (values : list number) : number :=
  (fold_left (fun sum val => sum + val) values 0 / of_nat (List.length values))%float.

(* ===================================================================== *)
(** * Sample inputs and the notions the statements use *)
(* ===================================================================== *)

(** A payload with a two-hour series. *)
Definition payload_3_5 : Wire.SolarDataResponse :=
  {| Wire.outputs :=
       {| Wire.ac := [3%float; 5%float];
          Wire.ac_monthly := [1%float];
          Wire.poa_monthly := [2%float];
          Wire.solrad_monthly := [4%float];
          Wire.dc_monthly := [6%float];
          Wire.ac_annual := 7%float;
          Wire.solrad_annual := 2%float;
          Wire.capacity_factor := 3%float |} |}.

(** What [getLatitudeLongitude] completes with in environment [w]. *)
Definition resolve (w : World) (pincode countrycode : string)
  : Completion (option SolarData.Coords) :=
  completion w (SolarData.getLatitudeLongitude pincode countrycode) tt.

Definition resolve_postcode (w : World) (pincode countrycode : string)
  : Completion (option PostcodeSolarData.Coords) :=
  completion w (PostcodeSolarData.getLatitudeLongitude pincode countrycode) tt.

(** The first entry of the lookup's result list, when the lookup settled
    with a success status, a JSON body and a list that is not empty. *)
Definition first_entry (o : FetchOutcome Wire.LatLongResponse) : option Wire.LatLong :=
  match o with
  | Resolved r =>
      if ok r then
        match json r with
        | Normal data =>
            match Wire.result data with
            | Some (first :: _) => Some first
            | _ => None
            end
        | Throw _ => None
        end
      else None
  | Rejected _ => None
  end.

(** A result entry, a lookup body with the given result list. *)
Definition entry (latitude longitude : string) : Wire.LatLong :=
  {| Wire.latitude := latitude; Wire.longitude := longitude |}.

Definition postal_body (entries : option (list Wire.LatLong)) : Wire.LatLongResponse :=
  {| Wire.status := None; Wire.result := entries; Wire.message := None |}.

(** An environment whose lookup service answers with [entries]; the other
    services are down. *)
Definition postal_world (entries : option (list Wire.LatLong)) : World :=
  scripted (success (postal_body entries)) (Rejected OtherValue) (Rejected OtherValue).

(** Two lookup bodies with one entry each. *)
Definition mumbai : Wire.LatLongResponse := postal_body (Some [entry "18.9750" "72.8258"]).
Definition sydney : Wire.LatLongResponse := postal_body (Some [entry "-33.8688" "151.2093"]).

(** The rescaled values of day [d] (counted from 0) that the hourly series
    [ac] has: indices [d*24] up to [d*24 + 23], cut at the end of [ac]. *)
Definition window (ac : list number) (capacityKW : number) (d : nat) : list number :=
  map (fun i => ((nth i ac 0 * capacityKW) / 1000)%float)
      (seq (d * 24) (Nat.min 24 (List.length ac - d * 24))).

(** The entry the loop pushes for day [d]. *)
Definition pushed (ac : list number) (capacityKW : number) (d : nat)
  : PostcodeSolarData.AggregatedSolarData :=
  {| PostcodeSolarData.day := d + 1;
     PostcodeSolarData.avgPower := mean (window ac capacityKW d) |}.

(** The hours of the year the loop covers: 365 windows of 24, that is
    8760. *)
Definition year_hours : nat := 365 * 24.

(** A full year of hourly values, all 2.0. *)
Definition constant_year : list number := repeat 2%float year_hours.

(** What the PVWatts call settled to, when the first network step of a run
    is that call. *)
Definition upstream_outcome (w : World) (steps : list Step)
  : option (FetchOutcome Wire.Json) :=
  match steps with
  | Started call :: _ =>
      match call with
      | GetPvwatts q => Some (w _ (GetPvwatts q))
      | _ => None
      end
  | _ => None
  end.

(** The handler's answer [{ error: msg }] with status 500. *)
Definition failure (msg : string) : NrelRoute.NextResponse :=
  {| NrelRoute.status := 500; NrelRoute.body := NrelRoute.ErrorBody msg |}.

(** A PVWatts body and a request carrying coordinates. *)
Definition pvwatts_body : Wire.Json :=
  Wire.JObject [("outputs", Wire.JObject [("ac", Wire.JArray [Wire.JNumber 3%float])])].

Definition coordinates_request : NrelRoute.Request :=
  {| NrelRoute.req_json :=
       Normal (Wire.JObject [("lat", Wire.JNumber 18.975%float);
                             ("long", Wire.JNumber 72.8258%float)]) |}.

(* ===================================================================== *)
(** * The rest of the components: submitting the form, what is rendered *)
(* ===================================================================== *)

(** A string used as a condition: the empty string is falsy. *)
Definition nonempty (s : string) : bool := negb (String.eqb s "").

Definition fill_in_all_fields : string := "Please fill in all fields".

(** The three text inputs of the form, as the component state holds them. *)
Record Form : Set := {
  zipcode : string;
  countryCode : string;
  solarCapacity : string
}.

(** [SolarData.tsx], lines 129-304. *)
Module SolarDataPage.

(** [handleSubmit]: the pipeline is started when the three fields are
    truthy, with the capacity text put through [parseFloat]. *)
Definition handleSubmit (f : Form) : M SolarData.State unit :=
  if nonempty (zipcode f) && nonempty (countryCode f) && nonempty (solarCapacity f)
  then SolarData.getSolarData (zipcode f) (countryCode f) (parseFloat (solarCapacity f))
  else SolarData.setError fill_in_all_fields.

(** The parts of the returned element that depend on the state: the form
    (always there), the loading indicator, the error box with its text, and
    the block of plots and table with the bundle it shows. *)
Record Screen : Set := {
  form : bool;
  loader : bool;
  errorBox : option string;
  plots : option SolarData.Bundle
}.

Definition render (s : SolarData.State) : Screen :=
  {| form := true;
     loader := SolarData.loading s;
     errorBox := if nonempty (SolarData.error s) then Some (SolarData.error s) else None;
     plots := match SolarData.solarData s with
              | Some b => if negb (SolarData.loading s) then Some b else None
              | None => None
              end |}.

(** The [x] and [y] of the annual hourly plot. *)
Definition hourlyPlot (b : SolarData.Bundle) : list nat * list number :=
  (map (fun d => SolarData.hour d) (SolarData.hourly b),
   map (fun d => SolarData.power d) (SolarData.hourly b)).

End SolarDataPage.

(** [PostcodeSolarData.tsx], lines 101-186. *)
Module PostcodePage.

Definition handleSubmit (f : Form) : M PostcodeSolarData.State unit :=
  if nonempty (zipcode f) && nonempty (countryCode f) && nonempty (solarCapacity f)
  then PostcodeSolarData.getSolarData (zipcode f) (countryCode f)
         (parseFloat (solarCapacity f))
  else PostcodeSolarData.setError fill_in_all_fields.

(** What the component returns: the loading indicator alone, or the error
    box alone, or the form, followed by the table of daily rows when there
    are rows. *)
Inductive Screen : Set :=
| Loader
| ErrorBox (msg : string)
| FormAndTable (rows : option (list PostcodeSolarData.AggregatedSolarData)).

Definition render (s : PostcodeSolarData.State) : Screen :=
  if PostcodeSolarData.loading s then Loader
  else if nonempty (PostcodeSolarData.error s) then ErrorBox (PostcodeSolarData.error s)
  else FormAndTable
         (if (0 <? List.length (PostcodeSolarData.solarData s))%nat
          then Some (PostcodeSolarData.solarData s) else None).

End PostcodePage.

(** The component text that follows the layout in [src/app/layout.tsx]
    (lines 129-134 of the file): the first 24 rescaled hours. *)
Module DaySolarData.

Record SolarDataItem : Set := { hour : nat; power : number }.

Definition hourlyData (acPower : list number) (solarcapacity : number)
  : list SolarDataItem :=
  let solarPower := map (fun power => ((power * solarcapacity) / 1000)%float) acPower in
  Arr.mapi (fun power index => {| hour := index; power := power |})
           (Arr.slice solarPower 0 24).

End DaySolarData.

(** What [fetch] makes of the route handler's answer: [ok] stands for a
    status from 200 to 299; [read] is what reading the body comes to. *)
Definition served (answer : NrelRoute.NextResponse)
    (read : Completion Wire.SolarDataResponse)
  : FetchOutcome Wire.SolarDataResponse :=
  Resolved {| ok := (200 <=? NrelRoute.status answer)%nat
                    && (NrelRoute.status answer <=? 299)%nat;
              json := read |}.

(** The state of [SolarData.tsx] and of [PostcodeSolarData.tsx] apart from
    the stored data. *)
Definition status_of (s : SolarData.State) : bool * string * list (string * string) :=
  (SolarData.loading s, SolarData.error s, SolarData.console s).

Definition status_of_postcode (s : PostcodeSolarData.State)
  : bool * string * list (string * string) :=
  (PostcodeSolarData.loading s, PostcodeSolarData.error s, PostcodeSolarData.console s).

(** A state of [SolarData.tsx] holding an earlier bundle and an earlier
    error. *)
Definition earlier_state : SolarData.State :=
  {| SolarData.solarData := Some (SolarData.combinedData payload_3_5 1000%float);
     SolarData.loading := false;
     SolarData.error := "old";
     SolarData.console := [] |}.

Definition postcode_earlier_state : PostcodeSolarData.State :=
  {| PostcodeSolarData.solarData :=
       [{| PostcodeSolarData.day := 1; PostcodeSolarData.avgPower := 2%float |}];
     PostcodeSolarData.loading := false;
     PostcodeSolarData.error := "";
     PostcodeSolarData.console := [] |}.

(** The state a failed run of [SolarData.tsx]'s pipeline leaves: the data
    of before, no loading, the generic message, and the console with
    [logged] added. *)
Definition after_failure (s : SolarData.State) (logged : list (string * string))
  : SolarData.State :=
  {| SolarData.solarData := SolarData.solarData s;
     SolarData.loading := false;
     SolarData.error := generic_failure;
     SolarData.console := (SolarData.console s ++ logged)%list |}.

Definition after_success (s : SolarData.State) (b : SolarData.Bundle) : SolarData.State :=
  {| SolarData.solarData := Some b;
     SolarData.loading := false;
     SolarData.error := "";
     SolarData.console := SolarData.console s |}.

(** The line the [catch] of the pipeline writes to the console. *)
Definition logged_error (t : Thrown) : list (string * string) :=
  [("Error fetching solar data:", message_of t)].

(** The two calls of a pipeline run that found coordinates. *)
Definition both_calls (pincode countrycode : string) (lat long : number) : list Step :=
  [Started (GetPostalLocation pincode countrycode);
   Settled (GetPostalLocation pincode countrycode);
   Started (PostNrelRoute lat long);
   Settled (PostNrelRoute lat long)].

Definition lookup_only (pincode countrycode : string) : list Step :=
  [Started (GetPostalLocation pincode countrycode);
   Settled (GetPostalLocation pincode countrycode)].

(** The two messages the route handler throws itself. *)
Definition missing_key_message : string :=
  "NREL API key is missing in environment variables".

Definition upstream_failed_message : string := "Failed to fetch data from NREL API".

(** The PVWatts call of the handler for a key and the two coordinates of
    the request body, as the network steps of a run. *)
Definition pvwatts_call (apiKey : string) (lat long : option Wire.Json) : list Step :=
  [Started (GetPvwatts (NrelRoute.url apiKey lat long));
   Settled (GetPvwatts (NrelRoute.url apiKey lat long))].

(** What the [catch] of the handler leaves: the answer with the message,
    and the console with one more line. *)
Definition route_failed (log : NrelRoute.Console) (msg : string)
  : Completion NrelRoute.NextResponse * NrelRoute.Console :=
  (Normal (failure msg), (log ++ [("NREL API Error:", msg)])%list).


(** An environment in which PVWatts settles to [o]. *)
Definition pvwatts_world (o : FetchOutcome Wire.Json) : World :=
  scripted (Rejected OtherValue) (Rejected OtherValue) o.

(** A number [JSON.stringify] writes so that it reads back as itself: it
    is finite and it is not negative zero. *)
Definition exact_number (x : number) : bool :=
  isFinite x && negb (PrimFloat.is_zero x && PrimFloat.get_sign x).

(** A JSON value all of whose numbers are such numbers. *)
Fixpoint exact (value : Wire.Json) : bool :=
  match value with
  | Wire.JNumber x => exact_number x
  | Wire.JArray items => forallb exact items
  | Wire.JObject members => forallb (fun member => exact (snd member)) members
  | _ => true
  end.

(** What [response.json()] gives for the PVWatts body [[1e400, -0]]: the
    first number is beyond the doubles and parses to Infinity. *)
Definition overflow_body : Wire.Json :=
  Wire.JArray [Wire.JNumber PrimFloat.infinity; Wire.JNumber PrimFloat.neg_zero].

(* ===================================================================== *)
(** * Array lemmas *)
(* ===================================================================== *)

Section ArrayFacts.
Context {A B : Type}.

Lemma map_from_length (f : A -> nat -> B) (arr : list A) :
  forall i, List.length (Arr.map_from f i arr) = List.length arr.
Proof.
  induction arr as [|x rest IH]; intros i; simpl; [reflexivity|].
  now rewrite IH.
Qed.

Lemma map_from_nth_error (f : A -> nat -> B) (arr : list A) :
  forall i n,
    nth_error (Arr.map_from f i arr) n
    = option_map (fun x => f x (i + n)) (nth_error arr n).
Proof.
  induction arr as [|x rest IH]; intros i n.
  - destruct n; reflexivity.
  - destruct n as [|n]; simpl.
    + now rewrite Nat.add_0_r.
    + rewrite IH. now rewrite Nat.add_succ_r.
Qed.

Lemma mapi_nth_error (f : A -> nat -> B) (arr : list A) (n : nat) :
  nth_error (Arr.mapi f arr) n = option_map (fun x => f x n) (nth_error arr n).
Proof. unfold Arr.mapi. now rewrite map_from_nth_error. Qed.

Lemma slice_length (arr : list A) (start stop : nat) :
  List.length (Arr.slice arr start stop)
  = Nat.min (stop - start) (List.length arr - start).
Proof. unfold Arr.slice. now rewrite length_firstn, length_skipn. Qed.

Lemma slice_nth_error (arr : list A) (start stop j : nat) :
  j < stop - start ->
  nth_error (Arr.slice arr start stop) j = nth_error arr (start + j).
Proof.
  intros Hj. unfold Arr.slice.
  rewrite nth_error_firstn.
  destruct (Nat.ltb_spec j (stop - start)) as [_|Hge]; [|lia].
  now rewrite nth_error_skipn.
Qed.

End ArrayFacts.

(** A list is the run of its elements: the slice is the list of the
    elements present in the window, in order. *)
Lemma slice_elements (arr : list number) (start stop : nat) :
  Arr.slice arr start stop
  = map (fun i => nth i arr 0%float)
        (seq start (Nat.min (stop - start) (List.length arr - start))).
Proof.
  apply nth_error_ext. intros j.
  destruct (Nat.lt_ge_cases j (Nat.min (stop - start) (List.length arr - start)))
    as [Hlt|Hge].
  - rewrite slice_nth_error by lia.
    rewrite nth_error_map, nth_error_seq.
    destruct (Nat.ltb_spec j (Nat.min (stop - start) (List.length arr - start)));
      [|lia].
    simpl. apply nth_error_nth'. lia.
  - rewrite (proj2 (nth_error_None _ _)) by (rewrite slice_length; lia).
    symmetry. apply nth_error_None. rewrite length_map, length_seq. lia.
Qed.

(* ===================================================================== *)
(** * The rescale (SolarData.tsx 93-110, PostcodeSolarData.tsx 73) *)
(* ===================================================================== *)

(** C1 (amended): for every hourly series H of the payload, every capacity
    and every index i of H, the bundle's point i has hour i and power
    H[i] * (capacityKW / 1000), the scale factor being computed first; the
    daily component's rescaled series has (H[i] * capacityKW) / 1000 at i.
    Both series are as long as H. *)
Theorem hourly_rescale
    (data : Wire.SolarDataResponse) (capacityKW : number) (i : nat) (h : number) :
  nth_error (Wire.ac (Wire.outputs data)) i = Some h ->
  nth_error (SolarData.hourly (SolarData.combinedData data capacityKW)) i
    = Some {| SolarData.hour := i;
              SolarData.power := (h * (capacityKW / 1000))%float |}
  /\ nth_error (PostcodeSolarData.acPower (Wire.ac (Wire.outputs data)) capacityKW) i
    = Some ((h * capacityKW) / 1000)%float
  /\ List.length (SolarData.hourly (SolarData.combinedData data capacityKW))
    = List.length (Wire.ac (Wire.outputs data))
  /\ List.length (PostcodeSolarData.acPower (Wire.ac (Wire.outputs data)) capacityKW)
    = List.length (Wire.ac (Wire.outputs data)).
Proof.
  intros Hi. repeat split.
  - unfold SolarData.combinedData; cbn [SolarData.hourly].
    now rewrite mapi_nth_error, Hi.
  - unfold PostcodeSolarData.acPower. now rewrite nth_error_map, Hi.
  - unfold SolarData.combinedData; cbn [SolarData.hourly].
    apply map_from_length.
  - apply length_map.
Qed.

Lemma hourly_rescale_witness :
  nth_error (SolarData.hourly (SolarData.combinedData payload_3_5 100%float)) 1
    = Some {| SolarData.hour := 1;
              SolarData.power := (5 * (100 / 1000))%float |}
  /\ nth_error (PostcodeSolarData.acPower (Wire.ac (Wire.outputs payload_3_5)) 100%float) 1
    = Some ((5 * 100) / 1000)%float
  /\ List.length (SolarData.hourly (SolarData.combinedData payload_3_5 100%float))
    = List.length (Wire.ac (Wire.outputs payload_3_5))
  /\ List.length (PostcodeSolarData.acPower (Wire.ac (Wire.outputs payload_3_5)) 100%float)
    = List.length (Wire.ac (Wire.outputs payload_3_5)).
Proof. apply (@hourly_rescale payload_3_5 100%float 1 5%float). reflexivity. Defined.

(** C1 as stated fails on SolarData.tsx: with H = [3, 5] and capacityKW =
    100 the bundle's power at index 0 is 3 * (100 / 1000) =
    0.30000000000000004, which is not equal to 3 * 100 / 1000 = 0.3. *)
Lemma hourly_rescale_literal_fails :
  exists p,
    nth_error (SolarData.hourly (SolarData.combinedData payload_3_5 100%float)) 0
      = Some p
    /\ (SolarData.power p =? (3 * 100) / 1000)%float = false.
Proof. eexists. split; [reflexivity|]. vm_compute. reflexivity. Qed.

(** C3: the bundle's ac_monthly, poa_monthly and dc_monthly are the
    payload's series with every element multiplied by capacityKW / 1000, and
    ac_annual is the payload's value times capacityKW / 1000; solrad_monthly,
    solrad_annual and capacity_factor are the payload's own values.  In
    particular solrad_monthly is the same for capacityKW = 1 and
    capacityKW = 5000. *)
Theorem monthly_annual_rescale (data : Wire.SolarDataResponse) (capacityKW : number) :
  let o := Wire.outputs data in
  let b := SolarData.combinedData data capacityKW in
  let scaled := map (fun val => (val * (capacityKW / 1000))%float) in
  SolarData.ac_monthly (SolarData.monthly b) = scaled (Wire.ac_monthly o)
  /\ SolarData.poa_monthly (SolarData.monthly b) = scaled (Wire.poa_monthly o)
  /\ SolarData.dc_monthly (SolarData.monthly b) = scaled (Wire.dc_monthly o)
  /\ SolarData.ac_annual (SolarData.annual b)
     = (Wire.ac_annual o * (capacityKW / 1000))%float
  /\ SolarData.solrad_monthly (SolarData.monthly b) = Wire.solrad_monthly o
  /\ SolarData.solrad_annual (SolarData.annual b) = Wire.solrad_annual o
  /\ SolarData.capacity_factor (SolarData.annual b) = Wire.capacity_factor o
  /\ SolarData.solrad_monthly (SolarData.monthly (SolarData.combinedData data 1%float))
     = SolarData.solrad_monthly
         (SolarData.monthly (SolarData.combinedData data 5000%float)).
Proof. cbv zeta. unfold SolarData.combinedData. cbn. repeat split. Qed.

(* ===================================================================== *)
(** * The coordinate resolver (getLatitudeLongitude) *)
(* ===================================================================== *)

(** Case analysis on what the lookup settled to, down to the two [isNaN]
    tests on the first entry. *)
Ltac postal_cases w pincode countrycode :=
  let Ho := fresh "Ho" in
  destruct (w _ (GetPostalLocation pincode countrycode))
    as [t|[[|] [[st [[|first rest]|] msg]|t]]] eqn:Ho;
  cbn;
  try destruct (isNaN (parseFloat (Wire.latitude first))) eqn:?;
  try destruct (isNaN (parseFloat (Wire.longitude first))) eqn:?;
  cbn.

(** The resolver makes one call, leaves the state alone, and what it
    completes with does not depend on the state it runs in. *)
Lemma getLatitudeLongitude_run {S} (w : World) (pincode countrycode : string) (s : S) :
  run w (SolarData.getLatitudeLongitude pincode countrycode s)
  = (resolve w pincode countrycode, s,
     [Started (GetPostalLocation pincode countrycode);
      Settled (GetPostalLocation pincode countrycode)]).
Proof.
  unfold resolve, completion, SolarData.getLatitudeLongitude,
    try_catch, bind, fetch, await, settle, ret, throw.
  cbn. postal_cases w pincode countrycode; reflexivity.
Qed.

Lemma getLatitudeLongitude_postcode_run {S} (w : World) (pincode countrycode : string) (s : S) :
  run w (PostcodeSolarData.getLatitudeLongitude pincode countrycode s)
  = (resolve_postcode w pincode countrycode, s,
     [Started (GetPostalLocation pincode countrycode);
      Settled (GetPostalLocation pincode countrycode)]).
Proof.
  unfold resolve_postcode, completion, PostcodeSolarData.getLatitudeLongitude,
    try_catch, bind, fetch, await, settle, ret, throw.
  cbn. postal_cases w pincode countrycode; reflexivity.
Qed.

(** The two components resolve alike. *)
Lemma resolve_postcode_resolve (w : World) (pincode countrycode : string) :
  resolve_postcode w pincode countrycode
  = match resolve w pincode countrycode with
    | Normal (Some c) =>
        Normal (Some {| PostcodeSolarData.lat := SolarData.lat c;
                        PostcodeSolarData.long := SolarData.long c |})
    | Normal None => Normal None
    | Throw t => Throw t
    end.
Proof.
  unfold resolve, resolve_postcode, completion,
    SolarData.getLatitudeLongitude, PostcodeSolarData.getLatitudeLongitude,
    try_catch, bind, fetch, await, settle, ret, throw.
  cbn. postal_cases w pincode countrycode; reflexivity.
Qed.

(** The resolver spelled out on what the lookup settled to. *)
Lemma resolve_cases (w : World) (pincode countrycode : string) :
  resolve w pincode countrycode
  = match w _ (GetPostalLocation pincode countrycode) with
    | Rejected _ => Normal None
    | Resolved r =>
        if ok r then
          match json r with
          | Throw _ => Normal None
          | Normal data =>
              match Wire.result data with
              | Some (first :: _) =>
                  let lat := parseFloat (Wire.latitude first) in
                  let long := parseFloat (Wire.longitude first) in
                  if isNaN lat || isNaN long then Normal None
                  else Normal (Some {| SolarData.lat := lat; SolarData.long := long |})
              | _ => Normal None
              end
          end
        else Normal None
    end.
Proof.
  unfold resolve, completion, SolarData.getLatitudeLongitude,
    try_catch, bind, fetch, await, settle, ret, throw.
  cbn. postal_cases w pincode countrycode; reflexivity.
Qed.

(** The [catch] of the resolver leaves nothing to propagate. *)
Lemma resolve_never_throws (w : World) (pincode countrycode : string) :
  exists r, resolve w pincode countrycode = Normal r.
Proof.
  rewrite resolve_cases.
  destruct (w _ (GetPostalLocation pincode countrycode))
    as [t|[[|] [[st [[|first rest]|] msg]|t]]]; cbn;
    try destruct (isNaN (parseFloat (Wire.latitude first)) ||
                  isNaN (parseFloat (Wire.longitude first)));
    eexists; reflexivity.
Qed.

(** C4 (amended): whenever the resolver of either component returns
    coordinates, neither field is NaN, and the fields are what parseFloat
    yields on the latitude and longitude strings of the first result entry;
    no finiteness or range check is made. *)
Theorem resolved_coordinates_not_nan (w : World) (pincode countrycode : string)
    (c : SolarData.Coords) :
  resolve w pincode countrycode = Normal (Some c) ->
  isNaN (SolarData.lat c) = false
  /\ isNaN (SolarData.long c) = false
  /\ (exists first,
        first_entry (w _ (GetPostalLocation pincode countrycode)) = Some first
        /\ SolarData.lat c = parseFloat (Wire.latitude first)
        /\ SolarData.long c = parseFloat (Wire.longitude first))
  /\ resolve_postcode w pincode countrycode
     = Normal (Some {| PostcodeSolarData.lat := SolarData.lat c;
                       PostcodeSolarData.long := SolarData.long c |}).
Proof.
  intros H.
  assert (Hp := resolve_postcode_resolve w pincode countrycode).
  rewrite H in Hp.
  rewrite resolve_cases in H. unfold first_entry.
  destruct (w _ (GetPostalLocation pincode countrycode))
    as [t|[[|] [[st [[|first rest]|] msg]|t]]]; cbn in *; try discriminate.
  destruct (isNaN (parseFloat (Wire.latitude first))) eqn:Hlat;
    destruct (isNaN (parseFloat (Wire.longitude first))) eqn:Hlong;
    cbn in H; try discriminate.
  injection H as <-. cbn. repeat split; try assumption.
  exists first. repeat split.
Qed.

Lemma resolved_coordinates_not_nan_witness :
  let w := postal_world (Some [entry "18.9750" "72.8258"]) in
  let c := {| SolarData.lat := parseFloat "18.9750";
              SolarData.long := parseFloat "72.8258" |} in
  isNaN (SolarData.lat c) = false
  /\ isNaN (SolarData.long c) = false
  /\ (exists first,
        first_entry (w _ (GetPostalLocation "400001" "IN")) = Some first
        /\ SolarData.lat c = parseFloat (Wire.latitude first)
        /\ SolarData.long c = parseFloat (Wire.longitude first))
  /\ resolve_postcode w "400001" "IN"
     = Normal (Some {| PostcodeSolarData.lat := SolarData.lat c;
                       PostcodeSolarData.long := SolarData.long c |}).
Proof.
  cbv zeta.
  apply (@resolved_coordinates_not_nan
           (postal_world (Some [entry "18.9750" "72.8258"])) "400001" "IN").
  vm_compute. reflexivity.
Defined.

(** C4 as stated fails: a lookup answering latitude "100" and longitude
    "Infinity" makes the resolver of both components return the
    coordinates (100, Infinity); 100 is above 90 and Infinity is not
    finite. *)
Lemma resolved_coordinates_unchecked :
  let w := postal_world (Some [entry "100" "Infinity"]) in
  resolve w "400001" "IN"
    = Normal (Some {| SolarData.lat := 100%float; SolarData.long := infinity |})
  /\ resolve_postcode w "400001" "IN"
    = Normal (Some {| PostcodeSolarData.lat := 100%float;
                      PostcodeSolarData.long := infinity |})
  /\ (100 <=? 90)%float = false
  /\ isFinite infinity = false.
Proof. vm_compute. repeat split. Qed.

(** C5 (amended): the resolver never raises, and it returns Unresolved
    exactly when the lookup call is rejected, or the response has a
    non-success status, or its body is not JSON, or the body has no result
    entries, or the latitude or the longitude string of the first entry
    parses to NaN.  Entries after the first never matter. *)
Theorem resolve_unresolved_iff (w : World) (pincode countrycode : string) :
  let o := w _ (GetPostalLocation pincode countrycode) in
  (exists r, resolve w pincode countrycode = Normal r)
  /\ (resolve w pincode countrycode = Normal None <->
        (exists t, o = Rejected t)
        \/ (exists r, o = Resolved r /\ ok r = false)
        \/ (exists r t, o = Resolved r /\ ok r = true /\ json r = Throw t)
        \/ (exists r data, o = Resolved r /\ ok r = true /\ json r = Normal data
              /\ (Wire.result data = None \/ Wire.result data = Some []))
        \/ (exists first, first_entry o = Some first
              /\ (isNaN (parseFloat (Wire.latitude first)) = true
                  \/ isNaN (parseFloat (Wire.longitude first)) = true)))
  /\ (forall st msg first rest route pvwatts,
        o = success {| Wire.status := st; Wire.result := Some (first :: rest);
                       Wire.message := msg |} ->
        resolve w pincode countrycode
        = resolve (scripted
                     (success {| Wire.status := st; Wire.result := Some [first];
                                 Wire.message := msg |})
                     route pvwatts) pincode countrycode).
Proof.
  cbv zeta. rewrite !resolve_cases. unfold first_entry.
  destruct (w _ (GetPostalLocation pincode countrycode))
    as [t|[[|] [[st [[|first rest]|] msg]|t]]]; cbn.
  all: try (destruct (isNaN (parseFloat (Wire.latitude first))) eqn:Hlat;
            destruct (isNaN (parseFloat (Wire.longitude first))) eqn:Hlong; cbn).
  all: split; [eexists; reflexivity|].
  all: split;
    [ split;
      [ intros H; try discriminate H
      | intros [[t' H]|[[r [H Hr]]|[[r [t' [H [Hr Hj]]]]
                |[[r [d [H [Hr [Hj Hres]]]]]|[f [H Hnan]]]]]];
        try discriminate; try reflexivity ]
    | intros st' msg' first' rest' route pvwatts H;
      try discriminate H ].
  all: try (injection H as <- <- <-; rewrite resolve_cases; cbn;
            rewrite ?Hlat, ?Hlong; reflexivity).
  all: try (exfalso; injection H as <-; cbn in *;
            first [ discriminate
                  | destruct Hres; discriminate
                  | injection Hj as <-; destruct Hres; discriminate
                  | destruct Hnan; congruence ]).
  all: try (left; eexists; reflexivity).
  all: try (right; left; eexists; split; reflexivity).
  all: try (right; right; left; do 2 eexists; repeat split; reflexivity).
  all: try (right; right; right; left; do 2 eexists;
            repeat split; try reflexivity; cbn; auto; fail).
  all: try (right; right; right; right; eexists; split;
            [reflexivity|]; auto; fail).
Qed.

Lemma resolve_unresolved_iff_witness :
  resolve (postal_world (Some [entry "18.9750" "72.8258"; entry "x" "y"])) "400001" "IN"
  = resolve (postal_world (Some [entry "18.9750" "72.8258"])) "400001" "IN".
Proof.
  exact (proj2 (proj2 (@resolve_unresolved_iff
           (postal_world (Some [entry "18.9750" "72.8258"; entry "x" "y"]))
           "400001" "IN"))
           None None (entry "18.9750" "72.8258") [entry "x" "y"]
           (Rejected OtherValue) (Rejected OtherValue) eq_refl).
Defined.

(** C5 as stated fails: the latitude string "Infinity" does not parse to a
    finite number, yet the resolver returns coordinates, not Unresolved. *)
Lemma resolve_keeps_infinity :
  let w := postal_world (Some [entry "Infinity" "72.8258"]) in
  isFinite (parseFloat "Infinity") = false
  /\ resolve w "400001" "IN"
     = Normal (Some {| SolarData.lat := infinity;
                       SolarData.long := parseFloat "72.8258" |})
  /\ resolve w "400001" "IN" <> Normal None.
Proof. vm_compute. repeat split. discriminate. Qed.

(* ===================================================================== *)
(** * The pipeline (getSolarData of SolarData.tsx) *)
(* ===================================================================== *)

Ltac unfold_pipeline :=
  unfold trace, final, completion,
    SolarData.getSolarData, SolarData.getLatitudeLongitude,
    SolarData.setLoading, SolarData.setError, SolarData.setSolarData,
    SolarData.console_error,
    try_finally, try_catch, bind, fetch, await, settle, modify, ret, throw;
  cbn.

(** The run of the pipeline when the resolver returns Unresolved. *)
Lemma getSolarData_unresolved (w : World) (pincode countrycode : string)
    (solarcapacity : number) (s : SolarData.State) :
  resolve w pincode countrycode = Normal None ->
  run w (SolarData.getSolarData pincode countrycode solarcapacity s)
  = (Normal tt,
     {| SolarData.solarData := SolarData.solarData s;
        SolarData.loading := false;
        SolarData.error := generic_failure;
        SolarData.console := SolarData.console s |},
     [Started (GetPostalLocation pincode countrycode);
      Settled (GetPostalLocation pincode countrycode)]).
Proof.
  rewrite resolve_cases. unfold_pipeline.
  postal_cases w pincode countrycode; intros H; try discriminate H; reflexivity.
Qed.

(** The run of the pipeline when the resolver returns coordinates: the
    route is called next, and the state depends on what it settles to. *)
Lemma getSolarData_resolved (w : World) (pincode countrycode : string)
    (solarcapacity : number) (s : SolarData.State) (c : SolarData.Coords) :
  resolve w pincode countrycode = Normal (Some c) ->
  trace w (SolarData.getSolarData pincode countrycode solarcapacity) s
  = [Started (GetPostalLocation pincode countrycode);
     Settled (GetPostalLocation pincode countrycode);
     Started (PostNrelRoute (SolarData.lat c) (SolarData.long c));
     Settled (PostNrelRoute (SolarData.lat c) (SolarData.long c))]
  /\ (forall data,
        w _ (PostNrelRoute (SolarData.lat c) (SolarData.long c)) = success data ->
        final w (SolarData.getSolarData pincode countrycode solarcapacity) s
        = {| SolarData.solarData := Some (SolarData.combinedData data solarcapacity);
             SolarData.loading := false;
             SolarData.error := "";
             SolarData.console := SolarData.console s |}).
Proof.
  rewrite resolve_cases. unfold_pipeline.
  postal_cases w pincode countrycode; intros H; try discriminate H.
  injection H as <-. cbn.
  destruct (w _ (PostNrelRoute _ _)) as [t|[[|] [data'|t]]]; cbn;
    (split; [reflexivity|]); intros data Hd; try discriminate Hd.
  injection Hd as <-. reflexivity.
Qed.

(** C8: the pipeline first calls the lookup service and lets it settle;
    the route is called after that, and only when the resolver returned
    coordinates.  When the resolver returns Unresolved, the route is never
    called and the pipeline ends with the generic failure message. *)
Theorem pipeline_sequential (w : World) (pincode countrycode : string)
    (solarcapacity : number) (s : SolarData.State) :
  let run_trace := trace w (SolarData.getSolarData pincode countrycode solarcapacity) s in
  let end_state := final w (SolarData.getSolarData pincode countrycode solarcapacity) s in
  run_trace
  = Started (GetPostalLocation pincode countrycode)
    :: Settled (GetPostalLocation pincode countrycode)
    :: match resolve w pincode countrycode with
       | Normal (Some c) =>
           [Started (PostNrelRoute (SolarData.lat c) (SolarData.long c));
            Settled (PostNrelRoute (SolarData.lat c) (SolarData.long c))]
       | _ => []
       end
  /\ (resolve w pincode countrycode = Normal None ->
      existsb is_proxy_step run_trace = false
      /\ SolarData.error end_state = generic_failure
      /\ SolarData.loading end_state = false
      /\ SolarData.solarData end_state = SolarData.solarData s).
Proof.
  cbv zeta. split.
  - destruct (resolve w pincode countrycode) as [[c|]|t] eqn:Hr.
    + apply (@getSolarData_resolved w pincode countrycode solarcapacity s c Hr).
    + unfold trace. now rewrite (@getSolarData_unresolved w pincode countrycode solarcapacity s Hr).
    + destruct (resolve_never_throws w pincode countrycode) as [r Hn].
      congruence.
  - intros Hr. unfold trace, final.
    rewrite (@getSolarData_unresolved w pincode countrycode solarcapacity s Hr).
    cbn. repeat split.
Qed.

Lemma pipeline_sequential_witness :
  let w := postal_world (Some []) in
  let run_trace := trace w (SolarData.getSolarData "400001" "IN" 1000%float) SolarData.initial in
  let end_state := final w (SolarData.getSolarData "400001" "IN" 1000%float) SolarData.initial in
  existsb is_proxy_step run_trace = false
  /\ SolarData.error end_state = generic_failure
  /\ SolarData.loading end_state = false
  /\ SolarData.solarData end_state = SolarData.solarData SolarData.initial.
Proof.
  cbv zeta.
  apply (proj2 (@pipeline_sequential (postal_world (Some [])) "400001" "IN"
                  1000%float SolarData.initial)).
  reflexivity.
Defined.

(** C9: two runs of the pipeline that reach the transformer with the same
    payload and the same capacity store the same bundle, whatever the
    states they started from, the postcodes asked for and the coordinates
    found; the bundle is a function of the payload and the capacity
    alone. *)
Theorem transformer_deterministic
    (w1 w2 : World) (pincode1 countrycode1 pincode2 countrycode2 : string)
    (s1 s2 : SolarData.State) (c1 c2 : SolarData.Coords)
    (data : Wire.SolarDataResponse) (capacityKW : number) :
  resolve w1 pincode1 countrycode1 = Normal (Some c1) ->
  w1 _ (PostNrelRoute (SolarData.lat c1) (SolarData.long c1)) = success data ->
  resolve w2 pincode2 countrycode2 = Normal (Some c2) ->
  w2 _ (PostNrelRoute (SolarData.lat c2) (SolarData.long c2)) = success data ->
  SolarData.solarData
    (final w1 (SolarData.getSolarData pincode1 countrycode1 capacityKW) s1)
  = SolarData.solarData
      (final w2 (SolarData.getSolarData pincode2 countrycode2 capacityKW) s2)
  /\ SolarData.solarData
       (final w1 (SolarData.getSolarData pincode1 countrycode1 capacityKW) s1)
     = Some (SolarData.combinedData data capacityKW).
Proof.
  intros R1 D1 R2 D2.
  rewrite (proj2 (@getSolarData_resolved w1 pincode1 countrycode1 capacityKW s1 c1 R1)
             data D1).
  rewrite (proj2 (@getSolarData_resolved w2 pincode2 countrycode2 capacityKW s2 c2 R2)
             data D2).
  split; reflexivity.
Qed.

Lemma transformer_deterministic_witness :
  let w1 := scripted (success mumbai) (success payload_3_5) (Rejected OtherValue) in
  let w2 := scripted (success sydney) (success payload_3_5) (Rejected OtherValue) in
  let s2 := {| SolarData.solarData := None; SolarData.loading := true;
               SolarData.error := "stale"; SolarData.console := [("a", "b")] |} in
  SolarData.solarData
    (final w1 (SolarData.getSolarData "400001" "IN" 5000%float) SolarData.initial)
  = SolarData.solarData
      (final w2 (SolarData.getSolarData "2000" "AU" 5000%float) s2)
  /\ SolarData.solarData
       (final w1 (SolarData.getSolarData "400001" "IN" 5000%float) SolarData.initial)
     = Some (SolarData.combinedData payload_3_5 5000%float).
Proof.
  cbv zeta.
  apply (@transformer_deterministic
           (scripted (success mumbai) (success payload_3_5) (Rejected OtherValue))
           (scripted (success sydney) (success payload_3_5) (Rejected OtherValue))
           "400001" "IN" "2000" "AU" SolarData.initial _
           {| SolarData.lat := parseFloat "18.9750";
              SolarData.long := parseFloat "72.8258" |}
           {| SolarData.lat := parseFloat "-33.8688";
              SolarData.long := parseFloat "151.2093" |}
           payload_3_5 5000%float);
    vm_compute; reflexivity.
Defined.

(* ===================================================================== *)
(** * The daily aggregation (PostcodeSolarData.tsx 73-82) *)
(* ===================================================================== *)

Lemma slice_acPower (ac : list number) (capacityKW : number) (d : nat) :
  Arr.slice (PostcodeSolarData.acPower ac capacityKW) (d * 24) (d * 24 + 24)
  = window ac capacityKW d.
Proof.
  rewrite slice_elements. unfold window, PostcodeSolarData.acPower.
  rewrite length_map.
  replace (d * 24 + 24 - d * 24) with 24 by lia.
  apply map_ext_in. intros i Hi. apply in_seq in Hi.
  rewrite (nth_indep _ 0%float ((0 * capacityKW) / 1000)%float)
    by (rewrite length_map; lia).
  apply (map_nth (fun power => ((power * capacityKW) / 1000)%float)).
Qed.

Lemma dayEntry_normal (ac : list number) (capacityKW : number) (d : nat) :
  PostcodeSolarData.dayEntry (PostcodeSolarData.acPower ac capacityKW) d
  = Normal (pushed ac capacityKW d).
Proof.
  unfold PostcodeSolarData.dayEntry. cbv zeta.
  rewrite slice_acPower. reflexivity.
Qed.

Lemma dailyLoop_normal (ac : list number) (capacityKW : number) :
  forall todo d acc,
    PostcodeSolarData.dailyLoop todo d (PostcodeSolarData.acPower ac capacityKW) acc
    = Normal (acc ++ map (pushed ac capacityKW) (seq d todo))%list.
Proof.
  induction todo as [|todo IH]; intros d acc;
    cbn [PostcodeSolarData.dailyLoop seq map].
  - now rewrite app_nil_r.
  - rewrite dayEntry_normal, IH, <- app_assoc. cbn [app].
    now replace (d + 1) with (S d) by lia.
Qed.

(** The loop never throws: for every series it completes with the 365
    pushed entries. *)
Lemma dailyData_normal (ac : list number) (capacityKW : number) :
  PostcodeSolarData.dailyData ac capacityKW
  = Normal (map (pushed ac capacityKW) (seq 0 365)).
Proof. unfold PostcodeSolarData.dailyData. now rewrite dailyLoop_normal. Qed.

Lemma pushed_days (ac : list number) (capacityKW : number) (n : nat) :
  forall d,
    map PostcodeSolarData.day (map (pushed ac capacityKW) (seq d n)) = seq (d + 1) n.
Proof.
  induction n as [|n IH]; intros d; simpl; [reflexivity|].
  f_equal. now rewrite IH.
Qed.

Lemma pushed_nth_error (ac : list number) (capacityKW : number) (d : nat) :
  d < 365 ->
  nth_error (map (pushed ac capacityKW) (seq 0 365)) d = Some (pushed ac capacityKW d).
Proof.
  intros Hd. rewrite nth_error_map, nth_error_seq.
  destruct (Nat.ltb_spec d 365); [reflexivity|lia].
Qed.

Lemma year_hours_value : Z.of_nat year_hours = 8760%Z.
Proof. reflexivity. Qed.

Lemma seq_from (start len : nat) :
  seq start len = map (fun j => start + j) (seq 0 len).
Proof.
  revert start. induction len as [|len IH]; intros start; simpl; [reflexivity|].
  rewrite Nat.add_0_r. f_equal.
  rewrite IH, <- seq_shift, map_map.
  apply map_ext. intros j. lia.
Qed.

(** The window of day [d], indexed from the start of the day. *)
Lemma window_from_day_start (ac : list number) (capacityKW : number) (d : nat) :
  window ac capacityKW d
  = map (fun j => ((nth (d * 24 + j) ac 0 * capacityKW) / 1000)%float)
        (seq 0 (Nat.min 24 (List.length ac - d * 24))).
Proof. unfold window. now rewrite seq_from, map_map. Qed.

Lemma window_length (ac : list number) (capacityKW : number) (d : nat) :
  List.length (window ac capacityKW d) = Nat.min 24 (List.length ac - d * 24).
Proof. unfold window. now rewrite length_map, length_seq. Qed.

(** C2: for every hourly series of at least 8760 values the daily
    aggregation completes with exactly 365 entries, their day fields are
    1, 2, ..., 365 in this order, and the average power of the entry of day
    d (counted from 0) is the mean of the 24 rescaled values at the indices
    d*24, ..., d*24 + 23: their sum, taken left to right from 0, divided by
    24. *)
Theorem daily_series_full_year (ac : list number) (capacityKW : number) :
  year_hours <= List.length ac ->
  exists days,
    PostcodeSolarData.dailyData ac capacityKW = Normal days
    /\ List.length days = 365
    /\ map PostcodeSolarData.day days = seq 1 365
    /\ forall d, d < 365 ->
         nth_error days d
         = Some {| PostcodeSolarData.day := d + 1;
                   PostcodeSolarData.avgPower :=
                     (fold_left (fun sum val => sum + val)
                        (map (fun j => (nth (d * 24 + j) ac 0 * capacityKW) / 1000)
                             (seq 0 24)) 0 / 24)%float |}.
Proof.
  unfold year_hours. intros Hlen. eexists. split; [apply dailyData_normal|].
  split; [now rewrite length_map, length_seq|].
  split; [apply (pushed_days ac capacityKW 365 0)|].
  intros d Hd. rewrite pushed_nth_error by assumption.
  unfold pushed, mean. rewrite window_length, window_from_day_start.
  replace (Nat.min 24 (List.length ac - d * 24)) with 24 by lia.
  reflexivity.
Qed.

(** C6: for every hourly series shorter than 8760 values the daily
    aggregation does not throw, and the average of each day is taken over
    the rescaled values of its window that exist: those at the indices from
    d*24 up to the end of the window or of the series, whichever comes
    first; their sum is divided by their number. *)
Theorem daily_series_short (ac : list number) (capacityKW : number) :
  List.length ac < year_hours ->
  exists days,
    PostcodeSolarData.dailyData ac capacityKW = Normal days
    /\ forall d, d < 365 ->
         let present := Nat.min (d * 24 + 24) (List.length ac) - d * 24 in
         nth_error days d
         = Some {| PostcodeSolarData.day := d + 1;
                   PostcodeSolarData.avgPower :=
                     (fold_left (fun sum val => sum + val)
                        (map (fun j => (nth (d * 24 + j) ac 0 * capacityKW) / 1000)
                             (seq 0 present)) 0 / of_nat present)%float |}.
Proof.
  unfold year_hours. intros Hlen. eexists. split; [apply dailyData_normal|].
  intros d Hd. rewrite pushed_nth_error by assumption.
  unfold pushed, mean. rewrite window_length, window_from_day_start.
  replace (Nat.min 24 (List.length ac - d * 24))
    with (Nat.min (d * 24 + 24) (List.length ac) - d * 24) by lia.
  reflexivity.
Qed.

Lemma window_first_year (ac ac' : list number) (capacityKW : number) (d : nat) :
  firstn year_hours ac = firstn year_hours ac' ->
  d < 365 ->
  window ac capacityKW d = window ac' capacityKW d.
Proof.
  unfold year_hours. intros Heq Hd. unfold window.
  assert (Hlen := f_equal (@List.length _) Heq).
  rewrite !length_firstn in Hlen.
  replace (Nat.min 24 (List.length ac' - d * 24))
    with (Nat.min 24 (List.length ac - d * 24)) by lia.
  apply map_ext_in. intros i Hi. apply in_seq in Hi.
  assert (Hnth : nth i ac 0%float = nth i ac' 0%float).
  { assert (H := nth_firstn (365 * 24) ac i 0%float).
    assert (H' := nth_firstn (365 * 24) ac' i 0%float).
    destruct (Nat.ltb_spec i (365 * 24)); [|lia].
    rewrite <- H, <- H'. now rewrite Heq. }
  now rewrite Hnth.
Qed.

(** C10: for every hourly series, of any length, the daily aggregation
    completes with exactly 365 entries whose day fields are 1, ..., 365; and
    two series with the same first 8760 values have the same daily
    series. *)
Theorem daily_series_any_length (ac : list number) (capacityKW : number) :
  (exists days,
     PostcodeSolarData.dailyData ac capacityKW = Normal days
     /\ List.length days = 365
     /\ map PostcodeSolarData.day days = seq 1 365)
  /\ forall ac',
       firstn year_hours ac = firstn year_hours ac' ->
       PostcodeSolarData.dailyData ac capacityKW
       = PostcodeSolarData.dailyData ac' capacityKW.
Proof.
  split.
  - eexists. split; [apply dailyData_normal|].
    split; [now rewrite length_map, length_seq|].
    apply (pushed_days ac capacityKW 365 0).
  - intros ac' Heq. rewrite !dailyData_normal. f_equal.
    apply map_ext_in. intros d Hd. apply in_seq in Hd.
    unfold pushed. now rewrite (@window_first_year ac ac' capacityKW d Heq) by lia.
Qed.

Lemma daily_series_full_year_witness :
  exists days,
    PostcodeSolarData.dailyData constant_year 1000%float = Normal days
    /\ List.length days = 365
    /\ map PostcodeSolarData.day days = seq 1 365
    /\ forall d, d < 365 ->
         nth_error days d
         = Some {| PostcodeSolarData.day := d + 1;
                   PostcodeSolarData.avgPower :=
                     (fold_left (fun sum val => sum + val)
                        (map (fun j => (nth (d * 24 + j) constant_year 0 * 1000) / 1000)
                             (seq 0 24)) 0 / 24)%float |}.
Proof.
  apply (@daily_series_full_year constant_year 1000%float).
  unfold constant_year. rewrite repeat_length. apply le_n.
Defined.

Lemma daily_series_short_witness :
  exists days,
    PostcodeSolarData.dailyData [3%float; 5%float] 100%float = Normal days
    /\ forall d, d < 365 ->
         let present := Nat.min (d * 24 + 24) 2 - d * 24 in
         nth_error days d
         = Some {| PostcodeSolarData.day := d + 1;
                   PostcodeSolarData.avgPower :=
                     (fold_left (fun sum val => sum + val)
                        (map (fun j => (nth (d * 24 + j) [3; 5] 0 * 100) / 1000)
                             (seq 0 present)) 0 / of_nat present)%float |}.
Proof.
  apply (@daily_series_short [3%float; 5%float] 100%float).
  unfold year_hours. simpl List.length. lia.
Defined.

Lemma daily_series_any_length_witness :
  PostcodeSolarData.dailyData (constant_year ++ [7%float]) 1000%float
  = PostcodeSolarData.dailyData (constant_year ++ [9%float; 11%float]) 1000%float.
Proof.
  apply (proj2 (@daily_series_any_length (constant_year ++ [7%float]) 1000%float)).
  vm_compute. reflexivity.
Defined.

(** The scenario of the specification: 8760 hourly values of 2.0 at
    capacity 1000 give a daily average of 2.0 on each of the 365 days. *)
Example constant_year_daily :
  PostcodeSolarData.dailyData constant_year 1000%float
  = Normal (map (fun d => {| PostcodeSolarData.day := d + 1;
                             PostcodeSolarData.avgPower := 2%float |})
                (seq 0 365)).
Proof. vm_compute. reflexivity. Qed.

(** A short series: the first day averages the two values there are, and a
    day with no value at all gets 0 / 0, which is NaN. *)
Example short_series_daily :
  exists days,
    PostcodeSolarData.dailyData [3%float; 5%float] 100%float = Normal days
    /\ option_map PostcodeSolarData.avgPower (nth_error days 0)
       = Some ((((0 + 0.3) + 0.5) / 2)%float)
    /\ option_map PostcodeSolarData.avgPower (nth_error days 1) = Some nan.
Proof. eexists. split; [vm_compute; reflexivity|]. split; vm_compute; reflexivity. Qed.

(* ===================================================================== *)
(** * The route handler (POST of app/api/NREL/route.ts) *)
(* ===================================================================== *)

Ltac unfold_route :=
  unfold trace, final, completion, NrelRoute.POST, NrelRoute.console_error,
    NrelRoute.truthy, NrelRoute.destructure,
    try_catch, bind, fetch, await, settle, modify, ret, throw;
  cbn.

Ltac route_cases :=
  repeat match goal with
         | |- context [match ?x with _ => _ end] =>
             is_var x; destruct x; cbn
         | |- context [ok ?r] =>
             is_var r; destruct r as [[|] [?|?]]; cbn
         | |- context [match NrelRoute.req_json ?r with _ => _ end] =>
             destruct (NrelRoute.req_json r); cbn
         | |- context [match NrelRoute.NREL_API ?e with _ => _ end] =>
             destruct (NrelRoute.NREL_API e) as [[|? ?]|]; cbn
         | |- context [?w _ (GetPvwatts ?q)] =>
             let o := fresh "o" in
             generalize (w _ (GetPvwatts q)); intros o
         end.

Lemma is_zero_cases (x : number) :
  PrimFloat.is_zero x = true -> x = PrimFloat.zero \/ x = PrimFloat.neg_zero.
Proof.
  unfold PrimFloat.is_zero. intros H. rewrite FloatAxioms.eqb_spec in H.
  change (Prim2SF PrimFloat.zero) with (S754_zero false) in H.
  rewrite <- (SF2Prim_Prim2SF x).
  destruct (Prim2SF x) as [[|]|[|]| |[|] m e]; try discriminate H.
  - right. reflexivity.
  - left. reflexivity.
Qed.

Lemma stringified_number_exact (x : number) :
  exact_number x = true -> NrelRoute.stringified_number x = Wire.JNumber x.
Proof.
  unfold exact_number, NrelRoute.stringified_number. intros H.
  apply andb_prop in H. destruct H as [Hfin Hzero]. rewrite Hfin.
  destruct (PrimFloat.is_zero x) eqn:Hz; [|reflexivity].
  destruct (@is_zero_cases x Hz) as [->| ->]; [reflexivity|discriminate Hzero].
Qed.

(** Serialising and reading back changes nothing in a value whose numbers
    are all finite and none of which is negative zero. *)
Lemma stringified_exact :
  forall value, exact value = true -> NrelRoute.stringified value = value.
Proof.
  fix IH 1. intros [ |b|x|str|items|members]; cbn [exact NrelRoute.stringified];
    intros H; try reflexivity.
  - now apply stringified_number_exact.
  - f_equal. induction items as [|item rest IHrest]; [reflexivity|].
    cbn [forallb map] in *. apply andb_prop in H. destruct H as [Hitem Hrest].
    f_equal; [apply IH, Hitem|apply IHrest, Hrest].
  - f_equal. induction members as [|[key item] rest IHrest]; [reflexivity|].
    cbn [forallb map fst snd] in *. apply andb_prop in H. destruct H as [Hitem Hrest].
    f_equal; [f_equal; apply IH, Hitem|apply IHrest, Hrest].
Qed.

(** C7 (amended): the handler always answers.  If the credential is absent,
    or the PVWatts call is rejected, or PVWatts answers with a non-success
    status, the answer is an error object with a string and status 500.  If
    the PVWatts call succeeds with a JSON body, the answer has status 200
    and the body parsed and serialised again: the same JSON value when all
    its numbers are finite and none is negative zero; otherwise a number
    that is not finite arrives as null and negative zero arrives as 0. *)
Theorem route_outcomes (w : World) (env : NrelRoute.Env) (req : NrelRoute.Request)
    (log : NrelRoute.Console) :
  let upstream := upstream_outcome w (trace w (NrelRoute.POST env req) log) in
  exists answer,
    completion w (NrelRoute.POST env req) log = Normal answer
    /\ (NrelRoute.truthy (NrelRoute.NREL_API env) = None
        \/ (exists t, upstream = Some (Rejected t))
        \/ (exists r, upstream = Some (Resolved r) /\ ok r = false) ->
        exists msg : string, answer = failure msg)
    /\ (forall data,
          upstream = Some (success data) ->
          answer = {| NrelRoute.status := 200;
                      NrelRoute.body := NrelRoute.Relayed (NrelRoute.stringified data) |}
          /\ (exact data = true ->
              answer = {| NrelRoute.status := 200;
                          NrelRoute.body := NrelRoute.Relayed data |}))
    /\ (forall x,
          NrelRoute.stringified (Wire.JNumber x)
          = if isFinite x
            then if PrimFloat.is_zero x then Wire.JNumber 0%float else Wire.JNumber x
            else Wire.JNull).
Proof.
  cbv zeta. unfold_route. route_cases.
  all: eexists; split; [reflexivity|]; cbn [upstream_outcome].
  all: split; [|split; [|reflexivity]].
  all: try (intros [H|[[t' H]|[r' [H Hok]]]]; try discriminate H;
            try (eexists; reflexivity);
            try (injection H as <-; cbn in Hok; discriminate Hok)).
  all: intros data' H; try discriminate H.
  all: injection H as <-; split; [reflexivity|].
  all: intros Hexact; now rewrite (@stringified_exact _ Hexact).
Qed.

Lemma route_outcomes_witness :
  let w := scripted (Rejected OtherValue) (Rejected OtherValue) (success pvwatts_body) in
  let down := scripted (Rejected OtherValue) (Rejected OtherValue)
                (Resolved {| ok := false; json := Normal pvwatts_body |}) in
  let env := {| NrelRoute.NREL_API := Some "key" |} in
  completion w (NrelRoute.POST env coordinates_request) []
    = Normal {| NrelRoute.status := 200; NrelRoute.body := NrelRoute.Relayed pvwatts_body |}
  /\ exists msg,
       completion down (NrelRoute.POST env coordinates_request) []
       = Normal (failure msg).
Proof.
  cbv zeta. split.
  - destruct (@route_outcomes
                (scripted (Rejected OtherValue) (Rejected OtherValue) (success pvwatts_body))
                {| NrelRoute.NREL_API := Some "key" |} coordinates_request [])
      as [answer [Hc [_ [Hok _]]]].
    rewrite Hc. f_equal. apply (Hok pvwatts_body); reflexivity.
  - destruct (@route_outcomes
                (scripted (Rejected OtherValue) (Rejected OtherValue)
                   (Resolved {| ok := false; json := Normal pvwatts_body |}))
                {| NrelRoute.NREL_API := Some "key" |} coordinates_request [])
      as [answer [Hc [Hfail _]]].
    destruct Hfail as [msg Hmsg].
    + right. right. eexists. split; reflexivity.
    + exists msg. rewrite Hc. now f_equal.
Defined.

(** C7 as stated fails: when the PVWatts body is [[1e400, -0]], which
    [response.json()] reads as Infinity and negative zero, the handler
    answers with status 200 and the body [[null, 0]], not the body it
    received. *)
Lemma route_relay_not_verbatim :
  let w := scripted (Rejected OtherValue) (Rejected OtherValue) (success overflow_body) in
  let env := {| NrelRoute.NREL_API := Some "key" |} in
  upstream_outcome w (trace w (NrelRoute.POST env coordinates_request) [])
    = Some (success overflow_body)
  /\ completion w (NrelRoute.POST env coordinates_request) []
     = Normal {| NrelRoute.status := 200;
                 NrelRoute.body :=
                   NrelRoute.Relayed (Wire.JArray [Wire.JNull; Wire.JNumber 0%float]) |}
  /\ Wire.JArray [Wire.JNull; Wire.JNumber 0%float] <> overflow_body.
Proof.
  cbv zeta. split; [reflexivity|]. split; [vm_compute; reflexivity|].
  unfold overflow_body. intros H. discriminate H.
Qed.

(* ===================================================================== *)
(** * Further properties of the resolver *)
(* ===================================================================== *)

(** X1: the resolver of either component makes exactly one network call,
    the postal lookup for the given codes, whatever the lookup settles to
    (nothing is retried, no other service is contacted), and it leaves the
    state it runs in as it was. *)
Theorem resolver_single_lookup {S : Type} (w : World) (pincode countrycode : string) (s : S) :
  trace w (SolarData.getLatitudeLongitude pincode countrycode) s
    = lookup_only pincode countrycode
  /\ final w (SolarData.getLatitudeLongitude pincode countrycode) s = s
  /\ trace w (PostcodeSolarData.getLatitudeLongitude pincode countrycode) s
    = lookup_only pincode countrycode
  /\ final w (PostcodeSolarData.getLatitudeLongitude pincode countrycode) s = s.
Proof.
  unfold trace, final.
  rewrite getLatitudeLongitude_run, getLatitudeLongitude_postcode_run.
  repeat split.
Qed.

(** X2: the resolver's result is a function of the first usable entry of
    the lookup alone: lookups with the same first entry (or both without
    one) resolve alike, whatever their status and message fields, their
    further entries, and the codes asked for. *)
Theorem resolver_depends_on_first_entry
    (w w' : World) (pincode countrycode pincode' countrycode' : string) :
  first_entry (w _ (GetPostalLocation pincode countrycode))
    = first_entry (w' _ (GetPostalLocation pincode' countrycode')) ->
  resolve w pincode countrycode = resolve w' pincode' countrycode'.
Proof.
  rewrite !resolve_cases. unfold first_entry.
  destruct (w _ (GetPostalLocation pincode countrycode))
    as [t|[[|] [[st [[|e rest]|] msg]|t]]];
  destruct (w' _ (GetPostalLocation pincode' countrycode'))
    as [t'|[[|] [[st' [[|e' rest']|] msg']|t']]];
  cbn; intros H; try discriminate H; try reflexivity.
  now injection H as <-.
Qed.

Lemma resolver_depends_on_first_entry_witness :
  resolve (scripted (success {| Wire.status := Some "error";
                                Wire.result := Some [entry "18.9750" "72.8258"; entry "1" "2"];
                                Wire.message := Some "partial" |})
                    (Rejected OtherValue) (Rejected OtherValue)) "400001" "IN"
  = resolve (postal_world (Some [entry "18.9750" "72.8258"])) "2000" "AU".
Proof.
  apply (@resolver_depends_on_first_entry
           (scripted (success {| Wire.status := Some "error";
                                 Wire.result := Some [entry "18.9750" "72.8258"; entry "1" "2"];
                                 Wire.message := Some "partial" |})
                     (Rejected OtherValue) (Rejected OtherValue))
           (postal_world (Some [entry "18.9750" "72.8258"]))
           "400001" "IN" "2000" "AU").
  reflexivity.
Defined.

(* ===================================================================== *)
(** * Further properties of the pipelines *)
(* ===================================================================== *)

(** Every run of the pipeline of [SolarData.tsx], by what the two services
    settled to. *)
Lemma getSolarData_run (w : World) (pincode countrycode : string)
    (solarcapacity : number) (s : SolarData.State) :
  run w (SolarData.getSolarData pincode countrycode solarcapacity s)
  = match resolve w pincode countrycode with
    | Normal (Some c) =>
        let calls := both_calls pincode countrycode (SolarData.lat c) (SolarData.long c) in
        match w _ (PostNrelRoute (SolarData.lat c) (SolarData.long c)) with
        | Rejected t => (Normal tt, after_failure s (logged_error t), calls)
        | Resolved r =>
            if ok r then
              match json r with
              | Normal data =>
                  (Normal tt,
                   after_success s (SolarData.combinedData data solarcapacity), calls)
              | Throw t => (Normal tt, after_failure s (logged_error t), calls)
              end
            else (Normal tt, after_failure s [], calls)
        end
    | _ => (Normal tt, after_failure s [], lookup_only pincode countrycode)
    end.
Proof.
  rewrite resolve_cases. unfold after_failure, after_success, logged_error.
  unfold_pipeline.
  postal_cases w pincode countrycode; rewrite ?app_nil_r; try reflexivity.
  destruct (w _ (PostNrelRoute _ _)) as [t|[[|] [data|t]]]; cbn;
    rewrite ?app_nil_r; reflexivity.
Qed.

(** The same for [PostcodeSolarData.tsx]. *)
Lemma getSolarData_postcode_run (w : World) (pincode countrycode : string)
    (solarcapacity : number) (s : PostcodeSolarData.State) :
  run w (PostcodeSolarData.getSolarData pincode countrycode solarcapacity s)
  = let failed logged :=
      {| PostcodeSolarData.solarData := PostcodeSolarData.solarData s;
         PostcodeSolarData.loading := false;
         PostcodeSolarData.error := generic_failure;
         PostcodeSolarData.console := (PostcodeSolarData.console s ++ logged)%list |} in
    match resolve w pincode countrycode with
    | Normal (Some c) =>
        let calls := both_calls pincode countrycode (SolarData.lat c) (SolarData.long c) in
        match w _ (PostNrelRoute (SolarData.lat c) (SolarData.long c)) with
        | Rejected t => (Normal tt, failed (logged_error t), calls)
        | Resolved r =>
            if ok r then
              match json r with
              | Normal data =>
                  (Normal tt,
                   {| PostcodeSolarData.solarData :=
                        map (pushed (Wire.ac (Wire.outputs data)) solarcapacity) (seq 0 365);
                      PostcodeSolarData.loading := false;
                      PostcodeSolarData.error := "";
                      PostcodeSolarData.console := PostcodeSolarData.console s |},
                   calls)
              | Throw t => (Normal tt, failed (logged_error t), calls)
              end
            else (Normal tt, failed [], calls)
        end
    | _ => (Normal tt, failed [], lookup_only pincode countrycode)
    end.
Proof.
  rewrite resolve_cases. unfold logged_error. cbv zeta.
  unfold PostcodeSolarData.getSolarData, PostcodeSolarData.getLatitudeLongitude,
    PostcodeSolarData.setLoading, PostcodeSolarData.setError,
    PostcodeSolarData.setSolarData, PostcodeSolarData.console_error,
    try_finally, try_catch, bind, fetch, await, settle, modify, ret, throw.
  cbn -[PostcodeSolarData.dailyData pushed].
  destruct (w _ (GetPostalLocation pincode countrycode))
    as [t|[[|] [[st [[|first rest]|] msg]|t]]];
    cbn -[PostcodeSolarData.dailyData pushed];
    rewrite ?app_nil_r; try reflexivity.
  destruct (isNaN (parseFloat (Wire.latitude first)));
    destruct (isNaN (parseFloat (Wire.longitude first)));
    cbn -[PostcodeSolarData.dailyData pushed];
    rewrite ?app_nil_r; try reflexivity.
  destruct (w _ (PostNrelRoute _ _)) as [t|[[|] [data|t]]];
    cbn -[PostcodeSolarData.dailyData pushed];
    rewrite ?dailyData_normal;
    cbn -[PostcodeSolarData.dailyData pushed];
    rewrite ?app_nil_r; reflexivity.
Qed.

Ltac run_cases w pincode countrycode :=
  unfold completion, final, trace;
  rewrite ?getSolarData_run, ?getSolarData_postcode_run; cbv zeta;
  destruct (resolve w pincode countrycode) as [[c|]|t0] eqn:Hresolve;
  [ destruct (w _ (PostNrelRoute (SolarData.lat c) (SolarData.long c)))
      as [t|[[|] [data|t]]] eqn:Hroute | | ];
  cbn [fst snd ok json SolarData.solarData SolarData.loading SolarData.error
       SolarData.console PostcodeSolarData.solarData PostcodeSolarData.loading
       PostcodeSolarData.error PostcodeSolarData.console
       after_failure after_success status_of status_of_postcode].

(** X3: a run of the pipeline of [SolarData.tsx] never throws to its
    caller, ends with [loading] false, and ends with an error text that is
    either empty or the generic message, whatever error text was there
    before.  The text is empty exactly when both services answered with
    success and a readable body. *)
Theorem pipeline_settles (w : World) (pincode countrycode : string)
    (solarcapacity : number) (s : SolarData.State) :
  let end_state := final w (SolarData.getSolarData pincode countrycode solarcapacity) s in
  completion w (SolarData.getSolarData pincode countrycode solarcapacity) s = Normal tt
  /\ SolarData.loading end_state = false
  /\ (SolarData.error end_state = "" \/ SolarData.error end_state = generic_failure)
  /\ (SolarData.error end_state = "" <->
      exists c data,
        resolve w pincode countrycode = Normal (Some c)
        /\ w _ (PostNrelRoute (SolarData.lat c) (SolarData.long c)) = success data).
Proof.
  cbv zeta. run_cases w pincode countrycode.
  all: repeat split; auto; try (intros H; discriminate H).
  all: try (intros [c' [data' [Hc Hd]]]; try discriminate Hc;
            injection Hc as <-; rewrite Hroute in Hd; discriminate Hd).
  intros _. exists c, data. split; [reflexivity|exact Hroute].
Qed.

(** X4: a run of the pipeline of [SolarData.tsx] that ends with the generic
    message leaves the stored bundle as it was before the run (an earlier
    bundle is kept, nothing partial is stored); a run that ends without a
    message has stored the bundle built from the body the route answered
    with. *)
Theorem failure_keeps_earlier_bundle (w : World) (pincode countrycode : string)
    (solarcapacity : number) (s : SolarData.State) :
  let end_state := final w (SolarData.getSolarData pincode countrycode solarcapacity) s in
  (SolarData.error end_state = generic_failure ->
   SolarData.solarData end_state = SolarData.solarData s)
  /\ (SolarData.error end_state = "" ->
      exists c data,
        resolve w pincode countrycode = Normal (Some c)
        /\ w _ (PostNrelRoute (SolarData.lat c) (SolarData.long c)) = success data
        /\ SolarData.solarData end_state
           = Some (SolarData.combinedData data solarcapacity)).
Proof.
  cbv zeta. run_cases w pincode countrycode.
  all: split; intros H; try discriminate H; try reflexivity.
  exists c, data. split; [reflexivity|]. split; [exact Hroute|reflexivity].
Qed.

Lemma failure_keeps_earlier_bundle_witness :
  SolarData.solarData
    (final (postal_world (Some [])) (SolarData.getSolarData "400001" "IN" 5%float)
           earlier_state)
  = SolarData.solarData earlier_state.
Proof.
  apply (proj1 (@failure_keeps_earlier_bundle (postal_world (Some [])) "400001" "IN"
                  5%float earlier_state)).
  reflexivity.
Defined.

(** X5: the pipeline of [SolarData.tsx] writes to the console at most once
    per run, and only when the call to the route is rejected or the body of
    its successful answer cannot be read; the line carries the message of
    what was thrown.  An unresolved postcode and a non-success status of the
    route are not logged. *)
Theorem pipeline_console (w : World) (pincode countrycode : string)
    (solarcapacity : number) (s : SolarData.State) :
  let end_state := final w (SolarData.getSolarData pincode countrycode solarcapacity) s in
  (SolarData.console end_state = SolarData.console s
   \/ exists c t,
        resolve w pincode countrycode = Normal (Some c)
        /\ (w _ (PostNrelRoute (SolarData.lat c) (SolarData.long c)) = Rejected t
            \/ w _ (PostNrelRoute (SolarData.lat c) (SolarData.long c))
               = Resolved {| ok := true; json := Throw t |})
        /\ SolarData.console end_state
           = (SolarData.console s
              ++ [("Error fetching solar data:", message_of t)])%list)
  /\ (resolve w pincode countrycode = Normal None ->
      SolarData.console end_state = SolarData.console s)
  /\ (forall c r,
        resolve w pincode countrycode = Normal (Some c) ->
        w _ (PostNrelRoute (SolarData.lat c) (SolarData.long c)) = Resolved r ->
        ok r = false ->
        SolarData.console end_state = SolarData.console s).
Proof.
  cbv zeta. run_cases w pincode countrycode; rewrite ?app_nil_r.
  all: split; [|split].
  all: try (intros H; try discriminate H; reflexivity).
  all: try (intros c' r' Hc Hr Hok; try discriminate Hc;
            injection Hc as <-; rewrite Hroute in Hr; try discriminate Hr;
            injection Hr as <-; try discriminate Hok; reflexivity).
  all: try (left; reflexivity).
  all: right; exists c, t; unfold logged_error; repeat split; auto.
Qed.

Lemma pipeline_console_witness :
  SolarData.console
    (final (postal_world (Some [])) (SolarData.getSolarData "400001" "IN" 5%float)
           earlier_state)
  = SolarData.console earlier_state.
Proof.
  apply (proj1 (proj2 (@pipeline_console (postal_world (Some [])) "400001" "IN"
                  5%float earlier_state))).
  reflexivity.
Defined.

(** X6: in every environment the pipelines of [SolarData.tsx] and
    [PostcodeSolarData.tsx], run with the same arguments, take the same
    network steps.  From states with the same console they also end with
    the same loading flag, error text and console, provided that a success
    answer of the route, if there is one, carries a body that reads as the
    full payload (a body that only one of the two can read is left out);
    they then differ only in the data they store. *)
Theorem components_agree (w : World) (pincode countrycode : string)
    (solarcapacity : number) (s : SolarData.State) (s' : PostcodeSolarData.State) :
  trace w (SolarData.getSolarData pincode countrycode solarcapacity) s
  = trace w (PostcodeSolarData.getSolarData pincode countrycode solarcapacity) s'
  /\ (SolarData.console s = PostcodeSolarData.console s' ->
      (forall c r,
         resolve w pincode countrycode = Normal (Some c) ->
         w _ (PostNrelRoute (SolarData.lat c) (SolarData.long c)) = Resolved r ->
         ok r = true ->
         exists data, json r = Normal data) ->
      status_of (final w (SolarData.getSolarData pincode countrycode solarcapacity) s)
      = status_of_postcode
          (final w (PostcodeSolarData.getSolarData pincode countrycode solarcapacity) s')).
Proof.
  run_cases w pincode countrycode.
  all: split; [reflexivity|]; intros Hc Hreads.
  all: unfold status_of, status_of_postcode, after_failure, after_success;
    cbn [SolarData.loading SolarData.error SolarData.console
         PostcodeSolarData.loading PostcodeSolarData.error PostcodeSolarData.console];
    now rewrite Hc.
Qed.

Lemma components_agree_witness :
  let w := scripted (success mumbai) (success payload_3_5) (Rejected OtherValue) in
  status_of (final w (SolarData.getSolarData "400001" "IN" 5%float) earlier_state)
  = status_of_postcode
      (final w (PostcodeSolarData.getSolarData "400001" "IN" 5%float)
             postcode_earlier_state).
Proof.
  cbv zeta.
  apply (proj2 (@components_agree
                  (scripted (success mumbai) (success payload_3_5) (Rejected OtherValue))
                  "400001" "IN" 5%float earlier_state postcode_earlier_state)).
  - reflexivity.
  - intros c r _ Hr _. vm_compute in Hr. injection Hr as <-.
    exists payload_3_5. reflexivity.
Defined.

(** X7: a run of the pipeline of [PostcodeSolarData.tsx] that ends with the
    generic message leaves the stored rows as they were; a run that ends
    without a message has stored the 365 rows the daily aggregation gives
    for the hourly series of the route's answer. *)
Theorem postcode_pipeline_stores_rows (w : World) (pincode countrycode : string)
    (solarcapacity : number) (s : PostcodeSolarData.State) :
  let end_state :=
    final w (PostcodeSolarData.getSolarData pincode countrycode solarcapacity) s in
  (PostcodeSolarData.error end_state = generic_failure ->
   PostcodeSolarData.solarData end_state = PostcodeSolarData.solarData s)
  /\ (PostcodeSolarData.error end_state = "" ->
      exists c data,
        resolve w pincode countrycode = Normal (Some c)
        /\ w _ (PostNrelRoute (SolarData.lat c) (SolarData.long c)) = success data
        /\ PostcodeSolarData.dailyData (Wire.ac (Wire.outputs data)) solarcapacity
           = Normal (PostcodeSolarData.solarData end_state)
        /\ List.length (PostcodeSolarData.solarData end_state) = 365).
Proof.
  cbv zeta. run_cases w pincode countrycode.
  all: split; intros H; try discriminate H; try reflexivity.
  exists c, data. split; [reflexivity|]. split; [exact Hroute|].
  split; [now rewrite dailyData_normal|].
  now rewrite length_map, length_seq.
Qed.

Lemma postcode_pipeline_stores_rows_witness :
  PostcodeSolarData.solarData
    (final (postal_world (Some []))
           (PostcodeSolarData.getSolarData "400001" "IN" 5%float) postcode_earlier_state)
  = PostcodeSolarData.solarData postcode_earlier_state.
Proof.
  apply (proj1 (@postcode_pipeline_stores_rows (postal_world (Some [])) "400001" "IN"
                  5%float postcode_earlier_state)).
  reflexivity.
Defined.

(* ===================================================================== *)
(** * Submitting the form *)
(* ===================================================================== *)

(** X8: when one of the three fields is empty, [handleSubmit] of either
    component makes no network call; it sets the error text to "Please fill
    in all fields" and changes nothing else (the loading flag, the stored
    data and the console stay as they were). *)
Theorem handleSubmit_empty_field (w : World) (f : Form)
    (s : SolarData.State) (s' : PostcodeSolarData.State) :
  zipcode f = "" \/ countryCode f = "" \/ solarCapacity f = "" ->
  trace w (SolarDataPage.handleSubmit f) s = []
  /\ final w (SolarDataPage.handleSubmit f) s
     = {| SolarData.solarData := SolarData.solarData s;
          SolarData.loading := SolarData.loading s;
          SolarData.error := fill_in_all_fields;
          SolarData.console := SolarData.console s |}
  /\ trace w (PostcodePage.handleSubmit f) s' = []
  /\ final w (PostcodePage.handleSubmit f) s'
     = {| PostcodeSolarData.solarData := PostcodeSolarData.solarData s';
          PostcodeSolarData.loading := PostcodeSolarData.loading s';
          PostcodeSolarData.error := fill_in_all_fields;
          PostcodeSolarData.console := PostcodeSolarData.console s' |}.
Proof.
  intros Hempty.
  assert (Hcond : nonempty (zipcode f) && nonempty (countryCode f)
                  && nonempty (solarCapacity f) = false).
  { unfold nonempty.
    destruct Hempty as [H|[H|H]]; rewrite H; cbn;
      rewrite ?andb_false_r; reflexivity. }
  unfold trace, final, SolarDataPage.handleSubmit, PostcodePage.handleSubmit.
  rewrite Hcond. repeat split.
Qed.

Lemma handleSubmit_empty_field_witness :
  let f := {| zipcode := "400001"; countryCode := ""; solarCapacity := "1000" |} in
  let w := scripted (success mumbai) (success payload_3_5) (Rejected OtherValue) in
  trace w (SolarDataPage.handleSubmit f) earlier_state = []
  /\ final w (SolarDataPage.handleSubmit f) earlier_state
     = {| SolarData.solarData := SolarData.solarData earlier_state;
          SolarData.loading := SolarData.loading earlier_state;
          SolarData.error := fill_in_all_fields;
          SolarData.console := SolarData.console earlier_state |}
  /\ trace w (PostcodePage.handleSubmit f) postcode_earlier_state = []
  /\ final w (PostcodePage.handleSubmit f) postcode_earlier_state
     = {| PostcodeSolarData.solarData := PostcodeSolarData.solarData postcode_earlier_state;
          PostcodeSolarData.loading := PostcodeSolarData.loading postcode_earlier_state;
          PostcodeSolarData.error := fill_in_all_fields;
          PostcodeSolarData.console := PostcodeSolarData.console postcode_earlier_state |}.
Proof.
  cbv zeta.
  apply (@handleSubmit_empty_field
           (scripted (success mumbai) (success payload_3_5) (Rejected OtherValue))
           {| zipcode := "400001"; countryCode := ""; solarCapacity := "1000" |}
           earlier_state postcode_earlier_state).
  right. left. reflexivity.
Defined.

(* ===================================================================== *)
(** * What is rendered after a run *)
(* ===================================================================== *)



(** X10: after a run of the pipeline of [PostcodeSolarData.tsx] the
    component returns either the error box with the generic message and
    nothing else (no form to submit again, no table), or the form with a
    table of 365 rows; never the loading indicator. *)
Theorem postcode_screen_after_run (w : World) (pincode countrycode : string)
    (solarcapacity : number) (s : PostcodeSolarData.State) :
  let end_state :=
    final w (PostcodeSolarData.getSolarData pincode countrycode solarcapacity) s in
  (PostcodeSolarData.error end_state = generic_failure
   /\ PostcodePage.render end_state = PostcodePage.ErrorBox generic_failure)
  \/ (PostcodeSolarData.error end_state = ""
      /\ exists rows,
           PostcodePage.render end_state = PostcodePage.FormAndTable (Some rows)
           /\ rows = PostcodeSolarData.solarData end_state
           /\ List.length rows = 365).
Proof.
  cbv zeta. run_cases w pincode countrycode.
  all: try (left; split; reflexivity).
  right. split; [reflexivity|].
  eexists. split; [|split; [reflexivity|]].
  - unfold PostcodePage.render.
    cbn [PostcodeSolarData.loading PostcodeSolarData.error
         PostcodeSolarData.solarData nonempty String.eqb negb].
    now rewrite length_map, length_seq.
  - now rewrite length_map, length_seq.
Qed.

(* ===================================================================== *)
(** * Facts of binary64 arithmetic the next properties rest on *)
(* ===================================================================== *)

Lemma isNaN_nan (x : number) : isNaN x = true -> x = PrimFloat.nan.
Proof.
  unfold isNaN, PrimFloat.is_nan. intros H. rewrite FloatAxioms.eqb_spec in H.
  apply Prim2SF_inj. change (Prim2SF PrimFloat.nan) with S754_nan.
  destruct (Prim2SF x) as [sg|sg| |sg m e]; try reflexivity; exfalso.
  - destruct sg; discriminate H.
  - destruct sg; discriminate H.
  - unfold SFeqb, SFcompare in H.
    rewrite Z.compare_refl, Pos.compare_cont_refl in H.
    destruct sg; discriminate H.
Qed.

Lemma mul_nan_r (x : number) : (x * PrimFloat.nan)%float = PrimFloat.nan.
Proof.
  apply Prim2SF_inj. rewrite FloatAxioms.mul_spec.
  change (Prim2SF PrimFloat.nan) with S754_nan.
  now destruct (Prim2SF x).
Qed.

Lemma div_nan_l (y : number) : (PrimFloat.nan / y)%float = PrimFloat.nan.
Proof.
  apply Prim2SF_inj. rewrite FloatAxioms.div_spec.
  now change (Prim2SF PrimFloat.nan) with S754_nan.
Qed.

Lemma add_nan_l (y : number) : (PrimFloat.nan + y)%float = PrimFloat.nan.
Proof.
  apply Prim2SF_inj. rewrite FloatAxioms.add_spec.
  now change (Prim2SF PrimFloat.nan) with S754_nan.
Qed.

Lemma add_nan_r (x : number) : (x + PrimFloat.nan)%float = PrimFloat.nan.
Proof.
  apply Prim2SF_inj. rewrite FloatAxioms.add_spec.
  change (Prim2SF PrimFloat.nan) with S754_nan.
  now destruct (Prim2SF x).
Qed.

Lemma mul_pow52 (m : positive) :
  (m * 4503599627370496)%positive = Pos.iter xO m 52.
Proof.
  change 4503599627370496%positive with (Pos.iter xO 1%positive 52).
  cbn [Pos.iter]. repeat rewrite Pos.mul_xO_r. now rewrite Pos.mul_1_r.
Qed.

(** Multiplying by 1 is exact. *)
Lemma SFmul_one (x : spec_float) :
  valid_binary x = true -> SF64mul x (Prim2SF 1) = x.
Proof.
  change (Prim2SF 1) with (S754_finite false 4503599627370496 (-52)).
  destruct x as [sg|sg| |sg m e]; cbn; intros Hv;
    try reflexivity; try (now destruct sg).
  unfold bounded, canonical_mantissa in Hv.
  apply andb_prop in Hv. destruct Hv as [Hc He].
  apply Z.eqb_eq in Hc.
  rewrite xorb_false_r.
  unfold binary_round_aux, shr_fexp.
  rewrite mul_pow52.
  assert (Hd : Zdigits2 (Z.pos (Pos.iter xO m 52)) = (Z.pos (digits2_pos m) + 52)%Z).
  { cbn [Pos.iter Zdigits2 digits2_pos]. lia. }
  rewrite Hd.
  replace (Z.pos (digits2_pos m) + 52 + (e + -52))%Z
    with (Z.pos (digits2_pos m) + e)%Z by lia.
  rewrite Hc.
  replace (e - (e + -52))%Z with 52%Z by lia.
  cbn [shr shr_record_of_loc SpecFloat.iter_pos Pos.iter shr_1 orb].
  cbn [shr_m loc_of_shr_record shr_r shr_s round_nearest_even].
  cbn [Zdigits2]. replace (e + -52 + 52)%Z with e by lia.
  rewrite Hc, Z.sub_diag. cbn [shr shr_record_of_loc shr_m].
  now rewrite He.
Qed.

Lemma mul_one (x : number) : (x * 1)%float = x.
Proof.
  apply Prim2SF_inj. rewrite FloatAxioms.mul_spec. apply SFmul_one, Prim2SF_valid.
Qed.

Lemma fold_add_nan (values : list number) :
  fold_left (fun sum val => (sum + val)%float) values PrimFloat.nan = PrimFloat.nan.
Proof.
  induction values as [|v rest IH]; cbn [fold_left]; [reflexivity|].
  now rewrite add_nan_l.
Qed.

Lemma mean_of_nans (k : nat) : mean (repeat PrimFloat.nan k) = PrimFloat.nan.
Proof.
  unfold mean. destruct k as [|k]; [reflexivity|].
  cbn [repeat fold_left]. rewrite add_nan_r, fold_add_nan. apply div_nan_l.
Qed.

Lemma map_constant {A B} (b : B) (l : list A) :
  map (fun _ => b) l = repeat b (List.length l).
Proof. induction l as [|x l IH]; cbn; [reflexivity|now rewrite IH]. Qed.

Lemma hourly_points (g : number -> number) (arr : list number) :
  forall i,
    let points := Arr.map_from (fun power index =>
                    {| SolarData.hour := index; SolarData.power := g power |}) i arr in
    map (fun d => SolarData.hour d) points = seq i (List.length arr)
    /\ map (fun d => SolarData.power d) points = map g arr.
Proof.
  induction arr as [|x rest IH]; intros i; cbn; [split; reflexivity|].
  destruct (IH (S i)) as [Hh Hp]. cbn in Hh, Hp. now rewrite Hh, Hp.
Qed.

(* ===================================================================== *)
(** * Further properties of the rescale *)
(* ===================================================================== *)

(** X11: the annual hourly plot of [SolarData.tsx] has the hours 0, 1, ...,
    n - 1 on its x axis, n being the length of the payload's hourly series,
    and the rescaled values in the payload's order on its y axis. *)
Theorem hourly_plot_axes (data : Wire.SolarDataResponse) (capacityKW : number) :
  SolarDataPage.hourlyPlot (SolarData.combinedData data capacityKW)
  = (seq 0 (List.length (Wire.ac (Wire.outputs data))),
     map (fun power => (power * (capacityKW / 1000))%float) (Wire.ac (Wire.outputs data))).
Proof.
  unfold SolarDataPage.hourlyPlot, SolarData.combinedData, Arr.mapi.
  cbn [SolarData.hourly].
  destruct (hourly_points (fun power => (power * (capacityKW / 1000))%float)
              (Wire.ac (Wire.outputs data)) 0) as [Hh Hp].
  cbv zeta in Hh, Hp. now rewrite Hh, Hp.
Qed.

(** X12: at capacity 1000 the bundle of [SolarData.tsx] carries the
    payload's numbers unchanged, bit for bit: the hourly powers, the three
    rescaled monthly series and the annual AC value are the payload's own
    (the scale factor 1000 / 1000 is exactly 1, and multiplying by 1 is
    exact). *)
Theorem capacity_1000_is_identity (data : Wire.SolarDataResponse) :
  let o := Wire.outputs data in
  let b := SolarData.combinedData data 1000%float in
  map (fun d => SolarData.power d) (SolarData.hourly b) = Wire.ac o
  /\ SolarData.ac_monthly (SolarData.monthly b) = Wire.ac_monthly o
  /\ SolarData.poa_monthly (SolarData.monthly b) = Wire.poa_monthly o
  /\ SolarData.dc_monthly (SolarData.monthly b) = Wire.dc_monthly o
  /\ SolarData.ac_annual (SolarData.annual b) = Wire.ac_annual o.
Proof.
  cbv zeta.
  assert (Hid : forall l, map (fun val => (val * (1000 / 1000))%float) l = l).
  { intros l. change (1000 / 1000)%float with 1%float.
    rewrite <- (map_id l) at 2. apply map_ext. intros v. apply mul_one. }
  unfold SolarData.combinedData, Arr.mapi.
  cbn [SolarData.hourly SolarData.monthly SolarData.annual SolarData.ac_monthly
       SolarData.poa_monthly SolarData.dc_monthly SolarData.ac_annual].
  destruct (hourly_points (fun power => (power * (1000 / 1000))%float)
              (Wire.ac (Wire.outputs data)) 0) as [_ Hp].
  cbv zeta in Hp. rewrite Hp, !Hid.
  repeat split. change (1000 / 1000)%float with 1%float. apply mul_one.
Qed.

(** X13: [handleSubmit] of [SolarData.tsx] does not check that the capacity
    text is a number.  With the three fields filled in and a capacity text
    that [parseFloat] turns into NaN, a submission whose two calls succeed
    stores a bundle in which every hourly power, every value of the three
    rescaled monthly series and the annual AC value is NaN; the solar
    radiation series is the payload's. *)
Theorem unparsed_capacity_gives_nan (w : World) (f : Form) (s : SolarData.State)
    (c : SolarData.Coords) (data : Wire.SolarDataResponse) :
  zipcode f <> "" -> countryCode f <> "" -> solarCapacity f <> "" ->
  isNaN (parseFloat (solarCapacity f)) = true ->
  resolve w (zipcode f) (countryCode f) = Normal (Some c) ->
  w _ (PostNrelRoute (SolarData.lat c) (SolarData.long c)) = success data ->
  exists b,
    SolarData.solarData (final w (SolarDataPage.handleSubmit f) s) = Some b
    /\ map (fun d => SolarData.power d) (SolarData.hourly b)
       = repeat PrimFloat.nan (List.length (Wire.ac (Wire.outputs data)))
    /\ SolarData.ac_monthly (SolarData.monthly b)
       = repeat PrimFloat.nan (List.length (Wire.ac_monthly (Wire.outputs data)))
    /\ SolarData.poa_monthly (SolarData.monthly b)
       = repeat PrimFloat.nan (List.length (Wire.poa_monthly (Wire.outputs data)))
    /\ SolarData.dc_monthly (SolarData.monthly b)
       = repeat PrimFloat.nan (List.length (Wire.dc_monthly (Wire.outputs data)))
    /\ SolarData.ac_annual (SolarData.annual b) = PrimFloat.nan
    /\ SolarData.solrad_monthly (SolarData.monthly b)
       = Wire.solrad_monthly (Wire.outputs data).
Proof.
  intros Hz Hc Hs Hnan Hres Hroute.
  assert (Hfilled : nonempty (zipcode f) && nonempty (countryCode f)
                    && nonempty (solarCapacity f) = true).
  { unfold nonempty.
    destruct (String.eqb_spec (zipcode f) ""); [contradiction|].
    destruct (String.eqb_spec (countryCode f) ""); [contradiction|].
    destruct (String.eqb_spec (solarCapacity f) ""); [contradiction|].
    reflexivity. }
  unfold SolarDataPage.handleSubmit. rewrite Hfilled.
  unfold final. rewrite getSolarData_run, Hres. cbv zeta. rewrite Hroute.
  cbn [success ok json fst snd after_success SolarData.solarData].
  eexists. split; [reflexivity|].
  rewrite (isNaN_nan _ Hnan).
  assert (Hall : forall l, map (fun val => (val * (PrimFloat.nan / 1000))%float) l
                           = repeat PrimFloat.nan (List.length l)).
  { intros l. rewrite <- map_constant. apply map_ext. intros v.
    now rewrite div_nan_l, mul_nan_r. }
  unfold SolarData.combinedData, Arr.mapi.
  cbn [SolarData.hourly SolarData.monthly SolarData.annual SolarData.ac_monthly
       SolarData.poa_monthly SolarData.dc_monthly SolarData.ac_annual
       SolarData.solrad_monthly].
  destruct (hourly_points (fun power => (power * (PrimFloat.nan / 1000))%float)
              (Wire.ac (Wire.outputs data)) 0) as [_ Hp].
  cbv zeta in Hp. rewrite Hp, !Hall.
  repeat split. now rewrite div_nan_l, mul_nan_r.
Qed.

Lemma unparsed_capacity_gives_nan_witness :
  let f := {| zipcode := "400001"; countryCode := "IN"; solarCapacity := "abc" |} in
  let w := scripted (success mumbai) (success payload_3_5) (Rejected OtherValue) in
  exists b,
    SolarData.solarData (final w (SolarDataPage.handleSubmit f) SolarData.initial) = Some b
    /\ map (fun d => SolarData.power d) (SolarData.hourly b) = repeat PrimFloat.nan 2
    /\ SolarData.ac_monthly (SolarData.monthly b) = repeat PrimFloat.nan 1
    /\ SolarData.poa_monthly (SolarData.monthly b) = repeat PrimFloat.nan 1
    /\ SolarData.dc_monthly (SolarData.monthly b) = repeat PrimFloat.nan 1
    /\ SolarData.ac_annual (SolarData.annual b) = PrimFloat.nan
    /\ SolarData.solrad_monthly (SolarData.monthly b) = [4%float].
Proof.
  cbv zeta.
  apply (@unparsed_capacity_gives_nan
           (scripted (success mumbai) (success payload_3_5) (Rejected OtherValue))
           {| zipcode := "400001"; countryCode := "IN"; solarCapacity := "abc" |}
           SolarData.initial
           {| SolarData.lat := parseFloat "18.9750"; SolarData.long := parseFloat "72.8258" |}
           payload_3_5);
    try (intros H; discriminate H); vm_compute; reflexivity.
Defined.

(* ===================================================================== *)
(** * Further properties of the daily aggregation *)
(* ===================================================================== *)

Lemma acPower_nan (ac : list number) :
  PostcodeSolarData.acPower ac PrimFloat.nan = repeat PrimFloat.nan (List.length ac).
Proof.
  unfold PostcodeSolarData.acPower. rewrite <- map_constant.
  apply map_ext. intros v. now rewrite mul_nan_r, div_nan_l.
Qed.

Lemma window_nan (ac : list number) (d : nat) :
  window ac PrimFloat.nan d
  = repeat PrimFloat.nan (Nat.min 24 (List.length ac - d * 24)).
Proof.
  unfold window.
  rewrite (map_ext _ (fun _ => PrimFloat.nan))
    by (intros i; now rewrite mul_nan_r, div_nan_l).
  now rewrite map_constant, length_seq.
Qed.

(** X14: with a capacity that is NaN the daily aggregation of
    [PostcodeSolarData.tsx] still completes with its 365 rows, and the
    average power of every row is NaN, for every hourly series. *)
Theorem nan_capacity_daily_rows (ac : list number) (capacityKW : number) :
  isNaN capacityKW = true ->
  exists days,
    PostcodeSolarData.dailyData ac capacityKW = Normal days
    /\ map PostcodeSolarData.day days = seq 1 365
    /\ map PostcodeSolarData.avgPower days = repeat PrimFloat.nan 365.
Proof.
  intros Hnan. rewrite (isNaN_nan _ Hnan).
  eexists. split; [apply dailyData_normal|].
  split; [apply (pushed_days ac PrimFloat.nan 365 0)|].
  rewrite map_map.
  rewrite (map_ext _ (fun _ => PrimFloat.nan)).
  - now rewrite map_constant, length_seq.
  - intros d. unfold pushed. cbn [PostcodeSolarData.avgPower].
    rewrite window_nan. apply mean_of_nans.
Qed.

Lemma nan_capacity_daily_rows_witness :
  exists days,
    PostcodeSolarData.dailyData [3%float; 5%float] (parseFloat "abc") = Normal days
    /\ map PostcodeSolarData.day days = seq 1 365
    /\ map PostcodeSolarData.avgPower days = repeat PrimFloat.nan 365.
Proof.
  apply (@nan_capacity_daily_rows [3%float; 5%float] (parseFloat "abc")).
  vm_compute. reflexivity.
Defined.

(** X15: a day whose window begins at or after the end of the hourly
    series gets the average 0 / 0, which is NaN; in particular an empty
    series gives 365 rows that are all NaN. *)
Theorem day_past_the_end_is_nan (ac : list number) (capacityKW : number) (d : nat) :
  d < 365 ->
  List.length ac <= d * 24 ->
  exists days,
    PostcodeSolarData.dailyData ac capacityKW = Normal days
    /\ nth_error days d
       = Some {| PostcodeSolarData.day := d + 1;
                 PostcodeSolarData.avgPower := PrimFloat.nan |}.
Proof.
  intros Hd Hlen. eexists. split; [apply dailyData_normal|].
  rewrite pushed_nth_error by assumption. unfold pushed, window.
  replace (Nat.min 24 (List.length ac - d * 24)) with 0 by lia.
  reflexivity.
Qed.

Lemma day_past_the_end_is_nan_witness :
  exists days,
    PostcodeSolarData.dailyData [3%float; 5%float] 100%float = Normal days
    /\ nth_error days 1
       = Some {| PostcodeSolarData.day := 1 + 1;
                 PostcodeSolarData.avgPower := PrimFloat.nan |}.
Proof.
  apply (@day_past_the_end_is_nan [3%float; 5%float] 100%float 1); simpl; lia.
Defined.

Lemma firstn_add {A} (a b : nat) (l : list A) :
  firstn (a + b) l = (firstn a l ++ firstn b (skipn a l))%list.
Proof.
  revert l. induction a as [|a IH]; intros l; [reflexivity|].
  destruct l as [|x l]; cbn.
  - now rewrite firstn_nil.
  - now rewrite IH.
Qed.

Lemma map_from_of_seq {A B} (f : A -> nat -> B) (g : nat -> A) (n : nat) :
  forall k, Arr.map_from f k (map g (seq k n)) = map (fun d => f (g d) d) (seq k n).
Proof.
  induction n as [|n IH]; intros k; cbn; [reflexivity|].
  now rewrite IH.
Qed.

(** X16: the rows the daily loop of [PostcodeSolarData.tsx] pushes are the
    averages of a partition of the first year: there are 365 windows of at
    most 24 values each which, put one after the other, are exactly the
    first 8760 rescaled values (all of them when the series is shorter), and
    row number i of [dailyData] has day i + 1 and the sum of window i
    divided by its length.  So each of these values enters exactly one
    daily average and no later value enters any. *)
Theorem daily_rows_average_a_partition (ac : list number) (capacityKW : number) :
  exists windows : list (list number),
    List.length windows = 365
    /\ (forall values, In values windows -> List.length values <= 24)
    /\ List.concat windows = firstn year_hours (PostcodeSolarData.acPower ac capacityKW)
    /\ PostcodeSolarData.dailyData ac capacityKW
       = Normal (Arr.mapi
                   (fun values index =>
                      {| PostcodeSolarData.day := index + 1;
                         PostcodeSolarData.avgPower :=
                           (fold_left (fun sum val => sum + val) values 0
                            / of_nat (List.length values))%float |})
                   windows).
Proof.
  exists (map (fun day => Arr.slice (PostcodeSolarData.acPower ac capacityKW)
                            (day * 24) (day * 24 + 24)) (seq 0 365)).
  split; [now rewrite length_map, length_seq|]. split; [|split].
  - intros values Hin. apply in_map_iff in Hin. destruct Hin as [day [<- _]].
    rewrite slice_length. lia.
  - unfold year_hours.
    generalize (PostcodeSolarData.acPower ac capacityKW) as acPower. intros acPower.
    generalize 365 as days.
    induction days as [|days IH]; [reflexivity|].
    rewrite seq_S, map_app, concat_app, IH. cbn [map List.concat plus].
    rewrite app_nil_r. unfold Arr.slice.
    replace (days * 24 + 24 - days * 24) with 24 by lia.
    replace (S days * 24) with (days * 24 + 24) by lia.
    now rewrite firstn_add.
  - rewrite dailyData_normal. unfold Arr.mapi. rewrite map_from_of_seq.
    f_equal. apply map_ext. intros day.
    unfold pushed, mean. now rewrite slice_acPower.
Qed.

(* ===================================================================== *)
(** * The 24-hour component *)
(* ===================================================================== *)

Lemma day_items_power (arr : list number) :
  forall i,
    map (fun d => DaySolarData.power d)
        (Arr.map_from (fun power index =>
           {| DaySolarData.hour := index; DaySolarData.power := power |}) i arr)
    = arr.
Proof.
  induction arr as [|x rest IH]; intros i; cbn; [reflexivity|].
  now rewrite IH.
Qed.

(** X17: the 24-hour component keeps the first 24 rescaled hours and no
    more: its list has min(24, n) items for a series of n values, item i has
    hour i and power (H[i] * capacity) / 1000, and there is no item at index
    24 or beyond. *)
Theorem day_component_first_24 (ac : list number) (capacityKW : number) :
  List.length (DaySolarData.hourlyData ac capacityKW) = Nat.min 24 (List.length ac)
  /\ (forall i h,
        i < 24 ->
        nth_error ac i = Some h ->
        nth_error (DaySolarData.hourlyData ac capacityKW) i
        = Some {| DaySolarData.hour := i;
                  DaySolarData.power := ((h * capacityKW) / 1000)%float |})
  /\ (forall i, 24 <= i -> nth_error (DaySolarData.hourlyData ac capacityKW) i = None).
Proof.
  unfold DaySolarData.hourlyData. cbv zeta.
  assert (Hlen : List.length
                   (Arr.mapi (fun power index =>
                      {| DaySolarData.hour := index; DaySolarData.power := power |})
                      (Arr.slice (map (fun power => ((power * capacityKW) / 1000)%float) ac)
                                 0 24))
                 = Nat.min 24 (List.length ac)).
  { unfold Arr.mapi. rewrite map_from_length, slice_length, length_map. lia. }
  split; [exact Hlen|]. split.
  - intros i h Hi Hnth.
    rewrite mapi_nth_error, slice_nth_error by lia.
    cbn [plus]. now rewrite nth_error_map, Hnth.
  - intros i Hi. apply nth_error_None. rewrite Hlen. lia.
Qed.

Lemma day_component_first_24_witness :
  nth_error (DaySolarData.hourlyData [3%float; 5%float] 100%float) 1
  = Some {| DaySolarData.hour := 1; DaySolarData.power := ((5 * 100) / 1000)%float |}.
Proof.
  apply (proj1 (proj2 (@day_component_first_24 [3%float; 5%float] 100%float)) 1 5%float).
  - lia.
  - reflexivity.
Defined.

(** X18: the average the daily table of [PostcodeSolarData.tsx] shows for
    day 1 is the mean of the powers the 24-hour component plots for the same
    series and capacity: their sum from 0, left to right, divided by their
    number. *)
Theorem first_day_is_mean_of_day_component (ac : list number) (capacityKW : number) :
  let powers := map (fun d => DaySolarData.power d)
                    (DaySolarData.hourlyData ac capacityKW) in
  exists days,
    PostcodeSolarData.dailyData ac capacityKW = Normal days
    /\ nth_error days 0
       = Some {| PostcodeSolarData.day := 1;
                 PostcodeSolarData.avgPower :=
                   (fold_left (fun sum val => sum + val) powers 0
                    / of_nat (List.length powers))%float |}.
Proof.
  cbv zeta. eexists. split; [apply dailyData_normal|].
  rewrite pushed_nth_error by lia.
  unfold DaySolarData.hourlyData, Arr.mapi. cbv zeta.
  rewrite day_items_power.
  change (map (fun power => ((power * capacityKW) / 1000)%float) ac)
    with (PostcodeSolarData.acPower ac capacityKW).
  change (Arr.slice (PostcodeSolarData.acPower ac capacityKW) 0 24)
    with (Arr.slice (PostcodeSolarData.acPower ac capacityKW) (0 * 24) (0 * 24 + 24)).
  rewrite slice_acPower. reflexivity.
Qed.

(* ===================================================================== *)
(** * Further properties of the route handler *)
(* ===================================================================== *)

(** Every run of the handler, by the request body, the credential and what
    PVWatts settled to. *)
Lemma POST_run (w : World) (env : NrelRoute.Env) (req : NrelRoute.Request)
    (log : NrelRoute.Console) :
  run w (NrelRoute.POST env req log)
  = match NrelRoute.req_json req with
    | Throw t => (route_failed log (message_of t), [])
    | Normal value =>
        match NrelRoute.destructure value with
        | Throw t => (route_failed log (message_of t), [])
        | Normal coords =>
            match NrelRoute.truthy (NrelRoute.NREL_API env) with
            | None => (route_failed log missing_key_message, [])
            | Some apiKey =>
                let calls := pvwatts_call apiKey (fst coords) (snd coords) in
                match w _ (GetPvwatts (NrelRoute.url apiKey (fst coords) (snd coords))) with
                | Rejected t => (route_failed log (message_of t), calls)
                | Resolved r =>
                    if ok r then
                      match json r with
                      | Normal data =>
                          (Normal {| NrelRoute.status := 200;
                                     NrelRoute.body :=
                                       NrelRoute.Relayed (NrelRoute.stringified data) |},
                           log, calls)
                      | Throw t => (route_failed log (message_of t), calls)
                      end
                    else (route_failed log upstream_failed_message, calls)
                end
            end
        end
    end.
Proof.
  unfold route_failed, pvwatts_call, failure, missing_key_message,
    upstream_failed_message.
  unfold NrelRoute.POST, NrelRoute.console_error,
    try_catch, bind, fetch, await, settle, modify, ret, throw.
  destruct (NrelRoute.req_json req) as [value|t]; cbn; [|reflexivity].
  destruct (NrelRoute.destructure value) as [coords|t]; cbn; [|reflexivity].
  destruct (NrelRoute.truthy (NrelRoute.NREL_API env)) as [apiKey|]; cbn;
    [|reflexivity].
  destruct (w _ (GetPvwatts _)) as [t|[[|] [data|t]]]; cbn; reflexivity.
Qed.

Ltac route_run_cases w env req :=
  unfold completion, final, trace; rewrite POST_run;
  destruct (NrelRoute.req_json req) as [value|t0] eqn:Hbody;
  [ destruct (NrelRoute.destructure value) as [coords|t1] eqn:Hcoords;
    [ destruct (NrelRoute.truthy (NrelRoute.NREL_API env)) as [apiKey|] eqn:Hkey;
      [ cbv zeta;
        destruct (w _ (GetPvwatts (NrelRoute.url apiKey (fst coords) (snd coords))))
          as [t|[[|] [data|t]]] eqn:Hup
      | ]
    | ]
  | ];
  cbn [fst snd ok json route_failed].



(** X20: the handler answers in one of two ways.  Either the status is 200,
    the body is the JSON value PVWatts sent, serialised again (a number that
    is not finite written as null, negative zero as 0), and nothing is
    written to the console; or the status is 500, the body is an error
    object, and exactly one line is written to the console, carrying the
    same message as the error object sent to the client. *)
Theorem route_answer_shape (w : World) (env : NrelRoute.Env) (req : NrelRoute.Request)
    (log : NrelRoute.Console) :
  let end_log := final w (NrelRoute.POST env req) log in
  (exists data,
     completion w (NrelRoute.POST env req) log
       = Normal {| NrelRoute.status := 200;
                   NrelRoute.body := NrelRoute.Relayed (NrelRoute.stringified data) |}
     /\ upstream_outcome w (trace w (NrelRoute.POST env req) log) = Some (success data)
     /\ end_log = log)
  \/ (exists msg,
        completion w (NrelRoute.POST env req) log
          = Normal {| NrelRoute.status := 500; NrelRoute.body := NrelRoute.ErrorBody msg |}
        /\ end_log = (log ++ [("NREL API Error:", msg)])%list).
Proof.
  cbv zeta. route_run_cases w env req.
  all: try (right; eexists; split; reflexivity).
  left. exists data. split; [reflexivity|]. split; [|reflexivity].
  unfold pvwatts_call, upstream_outcome. now rewrite Hup.
Qed.

(** X21: the message of a 500 answer tells the cause.  With a readable body
    and no credential it is the missing-key message.  When the PVWatts call
    is rejected it is the message of the rejection, or "Unknown error" when
    what was thrown is not an Error.  When PVWatts answers with a
    non-success status it is the failed-to-fetch message, whatever the body.
    When PVWatts answers with a success status and a body that is not JSON,
    the answer is still a 500, with the message of the parse error. *)
Theorem route_error_messages (w : World) (env : NrelRoute.Env) (req : NrelRoute.Request)
    (log : NrelRoute.Console) :
  let answer := completion w (NrelRoute.POST env req) log in
  let upstream := upstream_outcome w (trace w (NrelRoute.POST env req) log) in
  (forall value,
     NrelRoute.req_json req = Normal value -> value <> Wire.JNull ->
     NrelRoute.truthy (NrelRoute.NREL_API env) = None ->
     answer = Normal (failure missing_key_message))
  /\ (forall m, upstream = Some (Rejected (ErrorInstance m)) -> answer = Normal (failure m))
  /\ (upstream = Some (Rejected OtherValue) -> answer = Normal (failure "Unknown error"))
  /\ (forall r, upstream = Some (Resolved r) -> ok r = false ->
        answer = Normal (failure upstream_failed_message))
  /\ (forall t, upstream = Some (Resolved {| ok := true; json := Throw t |}) ->
        answer = Normal (failure (message_of t))).
Proof.
  cbv zeta. route_run_cases w env req.
  all: unfold pvwatts_call, upstream_outcome; rewrite ?Hup.
  all: split; [|split; [|split; [|split]]].
  all: try (intros value' Hv Hnull Hk; try discriminate Hk; try discriminate Hv;
            injection Hv as <-;
            destruct value; try (exfalso; apply Hnull; reflexivity);
            cbn in Hcoords; try discriminate Hcoords; reflexivity).
  all: try (intros m H; try discriminate H; injection H as <-; reflexivity).
  all: try (intros m H; injection H as ->; reflexivity).
  all: try (intros H; try discriminate H; injection H as <-; reflexivity).
  all: try (intros H; injection H as ->; reflexivity).
  all: try (intros r H Hok; try discriminate H; injection H as <-;
            try discriminate Hok; reflexivity).
Qed.

Lemma route_error_messages_witness :
  completion (pvwatts_world (Resolved {| ok := false; json := Normal pvwatts_body |}))
             (NrelRoute.POST {| NrelRoute.NREL_API := Some "key" |} coordinates_request) []
  = Normal (failure upstream_failed_message).
Proof.
  apply (proj1 (proj2 (proj2 (proj2
           (@route_error_messages
              (pvwatts_world (Resolved {| ok := false; json := Normal pvwatts_body |}))
              {| NrelRoute.NREL_API := Some "key" |} coordinates_request []))))
           {| ok := false; json := Normal pvwatts_body |});
    reflexivity.
Defined.

(** X22: the request body is read before the credential is looked at.  A
    body that cannot be read, or that is null, gives a 500 and no PVWatts
    call, whether or not the credential is set; for a body that cannot be
    read the message is that of the read failure, not the missing-key
    message. *)
Theorem route_reads_body_first (w : World) (env : NrelRoute.Env) (req : NrelRoute.Request)
    (log : NrelRoute.Console) :
  (forall t, NrelRoute.req_json req = Throw t ->
     completion w (NrelRoute.POST env req) log = Normal (failure (message_of t))
     /\ trace w (NrelRoute.POST env req) log = [])
  /\ (NrelRoute.req_json req = Normal Wire.JNull ->
      (exists msg, completion w (NrelRoute.POST env req) log = Normal (failure msg))
      /\ trace w (NrelRoute.POST env req) log = []).
Proof.
  unfold completion, trace. rewrite POST_run. split.
  - intros t H. rewrite H. split; reflexivity.
  - intros H. rewrite H. split; [eexists|]; reflexivity.
Qed.

Lemma route_reads_body_first_witness :
  completion (pvwatts_world (success pvwatts_body))
             (NrelRoute.POST {| NrelRoute.NREL_API := None |}
                {| NrelRoute.req_json := Throw (ErrorInstance "Unexpected end of JSON input") |})
             []
    = Normal (failure "Unexpected end of JSON input")
  /\ trace (pvwatts_world (success pvwatts_body))
           (NrelRoute.POST {| NrelRoute.NREL_API := None |}
              {| NrelRoute.req_json := Throw (ErrorInstance "Unexpected end of JSON input") |})
           []
     = [].
Proof.
  apply (proj1 (@route_reads_body_first (pvwatts_world (success pvwatts_body))
                  {| NrelRoute.NREL_API := None |}
                  {| NrelRoute.req_json := Throw (ErrorInstance "Unexpected end of JSON input") |}
                  [])
               (ErrorInstance "Unexpected end of JSON input")).
  reflexivity.
Defined.

(* ===================================================================== *)
(** * The component and the route handler together *)
(* ===================================================================== *)

(** X23: when the answer the component's call to the route settles to is
    the handler's answer, every error answer of the handler (missing
    credential, unreadable request, PVWatts failure) ends the component's
    run with the generic message, the earlier bundle kept and nothing
    logged in the browser; the handler's own message is not shown.  A
    relayed answer whose body reads as a payload ends the run with the
    bundle built from it. *)
Theorem route_answer_reaches_component
    (w : World) (env : NrelRoute.Env) (req : NrelRoute.Request) (log : NrelRoute.Console)
    (answer : NrelRoute.NextResponse) (read : Completion Wire.SolarDataResponse)
    (pincode countrycode : string) (solarcapacity : number)
    (s : SolarData.State) (c : SolarData.Coords) :
  completion w (NrelRoute.POST env req) log = Normal answer ->
  resolve w pincode countrycode = Normal (Some c) ->
  w _ (PostNrelRoute (SolarData.lat c) (SolarData.long c)) = served answer read ->
  let end_state := final w (SolarData.getSolarData pincode countrycode solarcapacity) s in
  (forall msg, NrelRoute.body answer = NrelRoute.ErrorBody msg ->
     SolarData.error end_state = generic_failure
     /\ SolarData.solarData end_state = SolarData.solarData s
     /\ SolarData.console end_state = SolarData.console s)
  /\ (forall relayed data,
        NrelRoute.body answer = NrelRoute.Relayed relayed ->
        read = Normal data ->
        SolarData.error end_state = ""
        /\ SolarData.solarData end_state
           = Some (SolarData.combinedData data solarcapacity)).
Proof.
  intros Hanswer Hres Hserved. cbv zeta.
  unfold final. rewrite getSolarData_run, Hres. cbv zeta. rewrite Hserved.
  revert Hanswer. clear Hserved.
  route_run_cases w env req.
  all: intros Hanswer; injection Hanswer as <-.
  all: unfold served, failure;
    cbn [NrelRoute.status NrelRoute.body Nat.leb andb ok json].
  all: split;
    [ intros msg H; try discriminate H;
      cbn [fst snd after_failure SolarData.error SolarData.solarData
           SolarData.console];
      rewrite ?app_nil_r; repeat split
    | intros relayed data' H Hread; try discriminate H;
      rewrite Hread;
      cbn [fst snd after_success SolarData.error SolarData.solarData];
      split; reflexivity ].
Qed.

Lemma route_answer_reaches_component_witness :
  let w := scripted (success mumbai)
             (served (failure missing_key_message) (Throw OtherValue))
             (success pvwatts_body) in
  let end_state := final w (SolarData.getSolarData "400001" "IN" 5%float) earlier_state in
  SolarData.error end_state = generic_failure
  /\ SolarData.solarData end_state = SolarData.solarData earlier_state
  /\ SolarData.console end_state = SolarData.console earlier_state.
Proof.
  cbv zeta.
  apply (proj1 (@route_answer_reaches_component
                  (scripted (success mumbai)
                     (served (failure missing_key_message) (Throw OtherValue))
                     (success pvwatts_body))
                  {| NrelRoute.NREL_API := None |} coordinates_request []
                  (failure missing_key_message) (Throw OtherValue)
                  "400001" "IN" 5%float earlier_state
                  {| SolarData.lat := parseFloat "18.9750";
                     SolarData.long := parseFloat "72.8258" |}
                  ltac:(reflexivity) ltac:(vm_compute; reflexivity) ltac:(reflexivity))
               missing_key_message).
  reflexivity.
Defined.
